(** * ForceCalculations: the force-profile sweeps of the two notebooks

    The repository holds two Jupyter notebooks that drive the pyLCP
    laser-cooling library: [part_000] scans the force on 39K over a
    position/velocity mesh, [two_three_forces.ipynb] loops over a
    dictionary of polarisations and scans a 1-D molasses force for each.

    The notebooks are embedded as functions of the values their cells
    read.  numpy's array constructors are modelled on IEEE binary64
    numbers (Rocq's primitive floats, round-to-nearest, every operation
    rounded separately); arrays are a shape and row-major data.  Python
    objects live in a heap addressed by position, so that the aliasing
    between [obe[key]] and the object it names is kept.  The physics of
    pyLCP is a parameter: a type class gives the opaque Hamiltonian and
    laser-beam objects and the force found at one phase-space point.
    The plotting cells are embedded as the list of drawings they ask of
    matplotlib. *)

From Stdlib Require Import Floats ZArith Lia.
From stdpp Require Import base option list gmap strings.

#[local] Set Warnings "-inexact-float,-clear-no-such-hyp".

(** ** Python dictionaries that are iterated *)

Module Python.

(** A [dict] with string keys as its items in insertion order; no key
    occurs twice. *)
Record dict (V : Type) := mk_dict {
  items : list (string * V);
  items_NoDup : NoDup (items.*1) }.
Arguments mk_dict {V} items items_NoDup.
Arguments items {V} d.
Arguments items_NoDup {V} d.

(** [for key in d]. *)
Definition keys {V} (d : dict V) : list string := (items d).*1.

(** [len(d)]. *)
Definition len {V} (d : dict V) : nat := length (items d).

(** [d[key]] on the items; [None] stands for [KeyError]. *)
Fixpoint lookup_items {V} (l : list (string * V)) (key : string) : option V :=
  match l with
  | [] => None
  | (k, x) :: rest => if decide (k = key) then Some x else lookup_items rest key
  end.

Definition get {V} (d : dict V) (key : string) : option V := lookup_items (items d) key.

End Python.

(** ** numpy: arrays of binary64 numbers *)

Module Numpy.

(** An [ndarray] of dtype float64: its [shape] and its elements in C
    (row-major) order. *)
Record ndarray := mk_ndarray { shape : list nat; data : list float }.

(** Number of elements of an array of the given shape. *)
Definition size_of (sh : list nat) : nat := foldr Nat.mul 1 sh.

(** A 1-D array from its elements. *)
Definition array1 (l : list float) : ndarray :=
  {| shape := [length l]; data := l |}.

(** [float(i)] for a loop index. *)
Definition of_nat (n : nat) : float := PrimFloat.of_uint63 (Uint63.of_Z (Z.of_nat n)).

(** [ceil] of a finite float as an integer, the way [np.arange] sizes
    its result ([_arange_safe_ceil_to_intp]); NaN and the infinities,
    which make [arange] raise, are sent to 0. *)
Definition ceil (f : float) : Z :=
  match Prim2SF f with
  | S754_finite sign m e =>
      if (0 <=? e)%Z then (if sign then - (Z.pos m * 2 ^ e) else Z.pos m * 2 ^ e)%Z
      else if sign then (- (Z.pos m / 2 ^ (- e)))%Z
           else (- ((- Z.pos m) / 2 ^ (- e)))%Z
  | _ => 0%Z
  end.

(** [np.zeros(shape)]. *)
Definition zeros (sh : list nat) : ndarray :=
  {| shape := sh; data := replicate (size_of sh) 0%float |}.

(** [np.arange(start, stop, step)] on floats: [ceil((stop - start)/step)]
    elements; the first is [start], the second [start + step], and the
    element of index [i >= 2] is [start + i*delta] with
    [delta = (start + step) - start]. *)
Definition arange (start stop step : float) : ndarray :=
  let len := Z.to_nat (ceil ((stop - start) / step)%float) in
  let next := (start + step)%float in
  let delta := (next - start)%float in
  array1 ((λ i, match i with
                 | 0 => start
                 | 1 => next
                 | _ => (start + of_nat i * delta)%float
                 end) <$> seq 0 len).

(** [np.linspace(start, stop, num)] with the default [endpoint=True]:
    [arange(0, num) * step + start], the last element overwritten with
    [stop] when [num > 1]. *)
Definition linspace (start stop : float) (num : nat) : ndarray :=
  let div := num - 1 in
  let delta := (stop - start)%float in
  let y := of_nat <$> seq 0 num in
  let y :=
    if (0 <? div)%nat then
      let step := (delta / of_nat div)%float in
      if (step =? 0)%float
      then (λ yi, yi / of_nat div * delta)%float <$> y
      else (λ yi, yi * step)%float <$> y
    else (λ yi, yi * delta)%float <$> y in
  let y := (λ yi, yi + start)%float <$> y in
  array1 (if (1 <? num)%nat then <[num - 1 := stop]> y else y).

(** [np.concatenate] of 1-D arrays. *)
Definition concatenate (arrs : list ndarray) : ndarray :=
  array1 (concat (data <$> arrs)).

(** [np.meshgrid(x, v)] of two 1-D arrays with the default
    [indexing='xy']: both results have shape [(len(v), len(x))]; the
    first repeats [x] along every row, the second holds [v[i]] all along
    row [i]. *)
Definition meshgrid (x v : ndarray) : ndarray * ndarray :=
  let nx := length (data x) in
  let nv := length (data v) in
  ({| shape := [nv; nx]; data := concat ((λ _, data x) <$> data v) |},
   {| shape := [nv; nx]; data := concat ((λ vi, replicate nx vi) <$> data v) |}).

(** [np.array([a0, a1, a2])] of three float arrays: a new leading axis
    of length 3.  numpy refuses sub-arrays of differing shapes. *)
Definition array3 (a0 a1 a2 : ndarray) : option ndarray :=
  if decide (shape a0 = shape a1 ∧ shape a1 = shape a2)
  then Some {| shape := 3 :: shape a0; data := data a0 ++ data a1 ++ data a2 |}
  else None.

(** [a[k]] for an array whose leading axis is the component axis. *)
Definition component (a : ndarray) (k : nat) : ndarray :=
  let sh := tail (shape a) in
  {| shape := sh; data := take (size_of sh) (drop (k * size_of sh) (data a)) |}.

(** [a[:, i] = (f0, f1, f2)] on an array of shape [(3, ...)], [i] the
    row-major position in the trailing axes. *)
Definition set_column (a : ndarray) (i : nat) (f : float * float * float) : ndarray :=
  let n := size_of (tail (shape a)) in
  let '(f0, f1, f2) := f in
  {| shape := shape a;
     data := <[2 * n + i := f2]> (<[n + i := f1]> (<[i := f0]> (data a))) |}.

End Numpy.

(** ** pylcp: the external simulation library

    pylcp is not part of the repository.  The notebooks construct its
    objects and call one method of them, [generate_force_profile]; what
    these do is modelled from the specification, and the physics proper
    (the force at one point of phase space) is left as a parameter. *)

Module Pylcp.
Import Numpy.

(** A vector of three binary64 numbers. *)
Abbreviation vec3 := (float * float * float)%type.

(** [pylcp.constantMagneticField(B0)], the only kind of field the
    notebooks build. *)
Inductive magField := constantMagneticField (B0 : vec3).

(** Modelled from the spec: the magnetic-field specification of pylcp,
    "constant or spatially varying".  A constant field is [B0] at every
    position [R] and time [t]. *)
Definition Field (m : magField) (R : vec3) (t : float) : vec3 :=
  match m with constantMagneticField B0 => B0 end.

(** One entry of the list handed to [pylcp.laserBeams]. *)
Record beam := mk_beam {
  kvec : vec3; pol : vec3; pol_coord : string; delta : float; s : float }.

Inductive beam_type := infinitePlaneWaveBeam.

(** The objects whose content is the library's business: Hamiltonians
    and laser-beam collections. *)
Class Physics := { hamiltonian : Type; laserBeams : Type }.

(** The two governing-equation classes, [pylcp.rateeq] and [pylcp.obe]. *)
Inductive governing := rateeq | obe.

(** What a governing-equation object is constructed from.
    [transform_into_re_im] is [None] where the call leaves it out. *)
Record trap_args `{Physics} := mk_trap_args {
  equation : governing;
  beams : laserBeams;
  field : magField;
  ham : hamiltonian;
  include_mag_forces : bool;
  transform_into_re_im : option bool }.

(** Keyword arguments passed through to the solver. *)
Inductive pyval := PyInt (z : Z) | PyFloat (f : float).
Definition kwargs : Type := list (string * pyval).

(** A raised Python exception: its class and its message. *)
Inductive exn := Exception (cls msg : string).

Inductive outcome (A : Type) := Ok (a : A) | Raised (e : exn).
Arguments Ok {A} a.
Arguments Raised {A} e.

(** Modelled from the spec: the black-box collaborator.  The library
    gives the construction of a laser-beam collection, and the
    equilibrium force on an atom at position [r] moving with velocity
    [v], which is a vector or an exception (no convergence, parameters
    the solver refuses).  The force is a function of its arguments: the
    evaluator is deterministic. *)
Class Backend `{Physics} := {
  pylcp_laserBeams : list beam → beam_type → laserBeams;
  find_equilibrium_force : trap_args → kwargs → vec3 → vec3 → outcome vec3 }.

(** A stored force profile: the grids it was computed on and the force,
    of shape [(3,) + grid shape]. *)
Record force_profile := mk_force_profile { R : ndarray; V : ndarray; F : ndarray }.

(** Objects are referred to by their position in the heap. *)
Abbreviation addr := nat (only parsing).

Section objects.
Context `{Physics}.

(** A governing-equation object: its construction arguments and its
    [profile] dictionary. *)
Record trap := mk_trap { args : trap_args; profile : gmap string force_profile }.

(** What a run does that can be observed from outside the values it
    returns. *)
Inductive event :=
| EvNew (a : addr) (ar : trap_args)
    (* a governing-equation object is constructed *)
| EvProfile (a : addr) (name : string) (R V : ndarray * ndarray * ndarray) (kw : kwargs)
    (* generate_force_profile is entered *)
| EvForce (a : addr) (name : string) (r v : vec3)
    (* the equilibrium force is sought at one point *)
| EvProgress (done total : nat)
    (* the progress bar is redrawn on the console *)
| EvSetItem (key : string) (a : addr)
    (* result[key] = object *)
| EvGetItem (key : string).
    (* result[key] is read *)

(** The interpreter's state: the objects allocated so far, addressed
    by position, and the events so far, oldest first. *)
Record world := mk_world { heap : list trap; trace : list event }.

(** Computations that read and change the world and return or raise.
    The world reached is kept when an exception is raised. *)
Definition M (A : Type) : Type := world → world * outcome A.

Definition ret {A} (a : A) : M A := λ w, (w, Ok a).

Definition raise {A} (e : exn) : M A := λ w, (w, Raised e).

Definition bind {A B} (m : M A) (k : A → M B) : M B :=
  λ w, match m w with
       | (w', Ok a) => k a w'
       | (w', Raised e) => (w', Raised e)
       end.

Definition emit (ev : event) : M unit :=
  λ w, ({| heap := heap w; trace := trace w ++ [ev] |}, Ok tt).

Definition alloc (t : trap) : M addr :=
  λ w, ({| heap := heap w ++ [t]; trace := trace w |}, Ok (length (heap w))).

(** Reading through a reference.  Every address in use comes from
    [alloc], so the error branch is never taken by the notebooks; neither
    is a [store] outside the heap, which would change nothing. *)
Definition load (a : addr) : M trap :=
  λ w, match heap w !! a with
       | Some t => (w, Ok t)
       | None => (w, Raised (Exception "ReferenceError" "no such object"))
       end.

Definition store (a : addr) (t : trap) : M unit :=
  λ w, ({| heap := <[a := t]> (heap w); trace := trace w |}, Ok tt).

(** An outcome computed without touching the world. *)
Definition lift {A} (o : outcome A) : M A := λ w, (w, o).

(** [d[key]] on a dictionary: [KeyError] where the key is absent. *)
Definition getitem {A} (d : gmap string A) (key : string) : M A :=
  match d !! key with
  | Some x => ret x
  | None => raise (Exception "KeyError" key)
  end.

End objects.

Declare Scope monad_scope.
Delimit Scope monad_scope with monad.
Notation "'let*' x ':=' c 'in' k" := (bind c (λ x, k))
  (at level 20, x pattern, c at level 100, k at level 200, only parsing) : monad_scope.
Notation "c ';;' k" := (bind c (λ _, k))
  (at level 100, k at level 200, only parsing, right associativity) : monad_scope.

Section library.
Context `{Backend}.
#[local] Open Scope monad_scope.

(** A [for] loop over a list. *)
Fixpoint foreach {A} (l : list A) (body : A → M unit) : M unit :=
  match l with
  | [] => ret tt
  | x :: l' => body x;; foreach l' body
  end.

(** Modelled from the spec: the constructors [pylcp.obe(laserBeams,
    magField, hamiltonian, ...)] and [pylcp.rateeq(...)] of the
    force-evaluation object, which keeps what it is constructed from and
    starts with an empty [profile] dictionary. *)
Definition new_trap (ar : trap_args) : M addr :=
  let* a := alloc {| args := ar; profile := ∅ |} in
  emit (EvNew a ar);;
  ret a.

(** [pylcp.obe(lb, mf, h, include_mag_forces=..., transform_into_re_im=...)]. *)
Definition pylcp_obe (lb : laserBeams) (mf : magField) (h : hamiltonian)
    (include_mag_forces : bool) (transform_into_re_im : option bool) : M addr :=
  new_trap (mk_trap_args _ obe lb mf h include_mag_forces transform_into_re_im).

(** [pylcp.rateeq(lb, mf, h, include_mag_forces=...)]. *)
Definition pylcp_rateeq (lb : laserBeams) (mf : magField) (h : hamiltonian)
    (include_mag_forces : bool) : M addr :=
  new_trap (mk_trap_args _ rateeq lb mf h include_mag_forces None).

(** The three components held at each point of an array of shape
    [(3, ...)], in row-major order of the points. *)
Definition columns (a : ndarray) : list vec3 :=
  zip (zip (data (component a 0)) (data (component a 1))) (data (component a 2)).

(** The points visited by [np.nditer] over the six component arrays:
    position and velocity at each grid point, in row-major order. *)
Definition nditer (R V : ndarray) : list (vec3 * vec3) := zip (columns R) (columns V).

(** [np.array(R)] for a triple of component arrays. *)
Definition np_array (a : ndarray * ndarray * ndarray) : M ndarray :=
  match array3 a.1.1 a.1.2 a.2 with
  | Some r => ret r
  | None => raise (Exception "ValueError" "inhomogeneous shape")
  end.

(** Modelled from the spec: [self.profile[name].store_data(index, F)],
    by which the force found at one point is written into the profile
    held by the object. *)
Definition store_data (self : addr) (name : string) (i : nat) (f : vec3) : M unit :=
  let* t := load self in
  let* fp := getitem (profile t) name in
  store self {| args := args t;
                profile := <[name := {| R := R fp; V := V fp;
                                        F := set_column (F fp) i f |}]> (profile t) |}.

(** Modelled from the spec: the body of the library's loop over the
    grid, which seeks the force at point [i], stores it, and redraws the
    progress bar when asked to. *)
Definition force_at (self : addr) (name : string) (ar : trap_args) (kw : kwargs)
    (progress_bar : bool) (total : nat) (p : nat * (vec3 * vec3)) : M unit :=
  let '(i, (r, v)) := p in
  emit (EvForce self name r v);;
  let* f := lift (find_equilibrium_force ar kw r v) in
  store_data self name i f;;
  if progress_bar then emit (EvProgress (S i) total) else ret tt.

(** Modelled from the spec: [generate_force_profile] belongs to pylcp,
    which is not part of the repository.  Given position and velocity
    grids (three component arrays each) it creates the profile [name]
    on the object, with a force array of 3 components per grid point
    whose trailing shape is the grid's, then seeks the force once at
    every grid point in turn and stores it; an exception of the
    solver is not handled; progress is reported to the console when
    [progress_bar] is set.  Grids of different shapes, which numpy
    would try to broadcast, are refused. *)
Definition generate_force_profile (self : addr) (R V : ndarray * ndarray * ndarray)
    (name : string) (kw : kwargs) (progress_bar : bool) : M unit :=
  emit (EvProfile self name R V kw);;
  let* R' := np_array R in
  let* V' := np_array V in
  (if decide (shape R' = shape V') then ret tt
   else raise (Exception "ValueError" "operands could not be broadcast together"));;
  let* t := load self in
  store self {| args := args t;
                profile := <[name := {| R := R'; V := V'; F := zeros (shape R') |}]>
                             (profile t) |};;
  let pts := nditer R' V' in
  foreach (zip (seq 0 (length pts)) pts)
          (force_at self name (args t) kw progress_bar (length pts)).

End library.

End Pylcp.

(** ** [part_000]: the force on 39K over a position/velocity mesh *)

Module Part000.
Import Numpy Pylcp.
#[local] Open Scope monad_scope.

(** What the cell before the scan leaves behind: the D2 Hamiltonian and
    the cooling and repump beams, all built by library calls. *)
Class Setup `{Physics} := { hamiltonian_D2 : hamiltonian; laserBeams_D2 : laserBeams }.

(** [eq = "obe"], the model selected at the top of the notebook. *)
Definition eq : string := "obe".

(** [magField = pylcp.constantMagneticField(np.array([0., 0., 0.]))]. *)
Definition magField : magField := constantMagneticField (0, 0, 0)%float.

(** [x = np.linspace(0.0, 0.0, num=1)]. *)
Definition x : ndarray := linspace 0.0 0.0 1.

(** [v]: ten velocities from 0.01 to 0.5, then five from 0.5 to 2.5. *)
Definition v : ndarray :=
  concatenate [linspace 1e-2 0.5 10; linspace 0.5 2.5 5].

Section scan.
Context `{Backend} `{!Setup}.

(** The scanning cell as a function of the model name, the two axes,
    the profile name and the progress flag.  It returns the trap
    object and [trap_D2.profile[name].F[2]]. *)
Definition force_scan (eq : string) (x v : ndarray) (name : string)
    (progress_bar : bool) : M (addr * ndarray) :=
  let '(X, V) := meshgrid x v in
  let* trap_D2 :=
    (if String.eqb eq "rateeq"
     then pylcp_rateeq laserBeams_D2 magField hamiltonian_D2 false
     else pylcp_obe laserBeams_D2 magField hamiltonian_D2 false None) in
  generate_force_profile trap_D2
    (zeros (shape X), zeros (shape X), X)
    (zeros (shape V), zeros (shape V), V)
    name [] progress_bar;;
  let* t := load trap_D2 in
  let* fp := getitem (profile t) name in
  ret (trap_D2, component (F fp) 2).

(** The cell as it stands in the notebook. *)
Definition cell : M (addr * ndarray) := force_scan eq x v "Fz" true.

End scan.
End Part000.

(** ** [two_three_forces.ipynb]: molasses forces per polarisation *)

Module TwoThree.
Import Numpy Pylcp.
#[local] Open Scope monad_scope.

(** [return_hamiltonian(Fl, Delta)] consists of library calls only (the
    reduced mass it closes over comes from the library's atom data). *)
Class Setup `{Physics} := { return_hamiltonian : Z → float → hamiltonian }.

(** [magField = pylcp.constantMagneticField(np.array([0., 0., 0.]))]. *)
Definition magField : magField := constantMagneticField (0, 0, 0)%float.

(** A polarisation entry: the polarisation vectors of the two beams. *)
Abbreviation pol_pair := (vec3 * vec3)%type.

(** The dictionary [pols]. *)
Definition pols : Python.dict pol_pair :=
  Python.mk_dict [("$\sigma^+\sigma^-$", ((0, 0, 1), (1, 0, 0)))%float]
                 (NoDup_singleton _).

(** The detuning and the saturation parameter. *)
Definition det : float := (-2.0)%float.
Definition s : float := 1.0%float.

(** [np.pi]. *)
Definition np_pi : float := 3.141592653589793%float.

(** [v]: ten half-open [np.arange] segments from -5.1 to 5.1, finer
    towards zero, the stop of each the start of the next but for the
    gap around zero. *)
Definition v : ndarray :=
  concatenate [arange (-5.1) (-0.1) 0.1;
               arange (-0.1) (-0.03) 0.01;
               arange (-0.03) (-0.02) 0.005;
               arange (-0.02) (-0.01) 0.002;
               arange (-0.01) (-0.001) 0.001;
               arange 0.001 0.01 0.001;
               arange 0.01 0.02 0.002;
               arange 0.02 0.03 0.005;
               arange 0.03 0.1 0.01;
               arange 0.1 5.1 0.1]%float.

(** The solver settings of the call. *)
Definition solver_kwargs : kwargs :=
  [("deltat_v", PyInt 4); ("deltat_tmax", PyFloat (2 * np_pi * 5000)%float);
   ("itermax", PyInt 1000); ("rel", PyFloat 1e-8%float); ("abs", PyFloat 1e-10%float)].

Section sweep.
Context `{Backend} `{!Setup}.

(** Two counter-propagating plane waves along z; the polarisations are
    read as spherical when the first has a positive second or third
    component. *)
Definition return_lasers (delta s : float) (pol : pol_pair) : laserBeams :=
  let pol_coord :=
    if ((0 <? pol.1.2) || (0 <? pol.1.1.2))%float then "spherical" else "cartesian" in
  pylcp_laserBeams
    [ {| kvec := (0, 0, 1)%float; Pylcp.pol := pol.1;
         pol_coord := pol_coord; delta := delta; Pylcp.s := s |};
      {| kvec := (0, 0, -1)%float; Pylcp.pol := pol.2;
         pol_coord := pol_coord; delta := delta; Pylcp.s := s |} ]
    infinitePlaneWaveBeam.

(** One turn of [for key_beam in pols]: the result mapping [obe] goes
    in and comes out. *)
Definition sweep_body (pols : Python.dict pol_pair) (hamiltonian : hamiltonian)
    (s : float) (v : ndarray) (progress_bar : bool)
    (obe : gmap string addr) (key_beam : string) : M (gmap string addr) :=
  let* pol := match Python.get pols key_beam with
              | Some p => ret p
              | None => raise (Exception "KeyError" key_beam)
              end in
  let laserBeams := return_lasers 0 s pol in
  let* o := pylcp_obe laserBeams magField hamiltonian false (Some true) in
  emit (EvSetItem key_beam o);;
  let obe := <[key_beam := o]> obe in
  emit (EvGetItem key_beam);;
  let* self := getitem obe key_beam in
  generate_force_profile self
    (zeros (shape v), zeros (shape v), zeros (shape v))
    (zeros (shape v), zeros (shape v), v)
    "molasses" solver_kwargs progress_bar;;
  ret obe.

(** The loop over the keys of [pols], from [obe = {}]. *)
Fixpoint sweep_loop (pols : Python.dict pol_pair) (hamiltonian : hamiltonian)
    (s : float) (v : ndarray) (progress_bar : bool)
    (keys : list string) (obe : gmap string addr) : M (gmap string addr) :=
  match keys with
  | [] => ret obe
  | key_beam :: keys' =>
      let* obe' := sweep_body pols hamiltonian s v progress_bar obe key_beam in
      sweep_loop pols hamiltonian s v progress_bar keys' obe'
  end.

(** The sweep cell as a function of the polarisation dictionary, the
    velocity axis and the progress flag. *)
Definition sweep (pols : Python.dict pol_pair) (v : ndarray)
    (progress_bar : bool) : M (gmap string addr) :=
  let hamiltonian := return_hamiltonian 2 det in
  sweep_loop pols hamiltonian s v progress_bar (Python.keys pols) ∅.

(** The cell as it stands in the notebook. *)
Definition cell : M (gmap string addr) := sweep pols v true.

End sweep.
End TwoThree.


(** ** matplotlib: what a figure is asked to draw *)

Module Pyplot.
Import Numpy Pylcp.

(** One line of a plot: the axes it is drawn in, its points, and the
    format string and style keywords of the call, [None] where the call
    leaves one out. *)
Record line := mk_line {
  axes : string; xdata : list float; ydata : list float;
  fmt : option string; label : option string;
  linestyle : option string; linewidth : option float }.

(** What a cell asks of matplotlib, in the order of its calls. *)
Inductive drawing :=
| Subplots (ax : string)
    (* fig, ax = plt.subplots(...): a figure with one set of axes *)
| InsetAxes (ax parent : string) (width height : float)
| Line (l : line)
| SetXlim (ax : string) (lo hi : float)
| SetYlim (ax : string) (lo hi : float)
| SetXlabel (ax text : string)
| SetYlabel (ax text : string)
| Legend (ax loc : string)
| Savefig (fname : string).


(** [np.atleast_1d(a).shape[0]]. *)
Definition first_dim (a : ndarray) : nat :=
  match shape a with [] => 1 | n :: _ => n end.

(** The number of columns once a 1-D array is read as one column. *)
Definition ncols (a : ndarray) : nat :=
  match shape a with [_; c] => c | _ => 1 end.

(** [a[:, j]] of a 2-D array in row-major order; a 1-D array is its own
    only column. *)
Definition column (a : ndarray) (j : nat) : list float :=
  match shape a with
  | [n; c] => (λ i, nth (i * c + j) (data a) 0%float) <$> seq 0 n
  | _ => data a
  end.

(** [ax.plot(x, y, fmt, label=..., linestyle=..., linewidth=...)] as
    matplotlib's [_plot_args] treats two arrays: they must agree in
    their first dimension and have at most two; columns are paired, a
    single column being reused, and one line is drawn per pair.  The
    messages of the exceptions are without the shapes matplotlib adds. *)
Definition plot (ax : string) (x y : ndarray) (fmt label linestyle : option string)
    (linewidth : option float) : outcome (list line) :=
  if negb (first_dim x =? first_dim y) then
    Raised (Exception "ValueError" "x and y must have same first dimension")
  else if (2 <? length (shape x)) || (2 <? length (shape y)) then
    Raised (Exception "ValueError" "x and y can be no greater than 2D")
  else
    let ncx := ncols x in
    let ncy := ncols y in
    if (1 <? ncx) && (1 <? ncy) && negb (ncx =? ncy) then
      Raised (Exception "ValueError" "x and y have different numbers of columns")
    else if (ncx =? 0) || (ncy =? 0) then Ok []
    else Ok ((λ j, mk_line ax (column x (j mod ncx)) (column y (j mod ncy))
                     fmt label linestyle linewidth) <$> seq 0 (ncx `max` ncy)).

End Pyplot.

(** ** The plotting cell of [part_000] *)

Module Part000Cells.
Import Numpy Pylcp Pyplot.
#[local] Open Scope monad_scope.

(** [fig, ax = plt.subplots(); ax.plot(V, Fz_D2, '.')], as a function of
    the two arrays the cell reads. *)
Definition plot_cell (V Fz_D2 : ndarray) : outcome (list drawing) :=
  match plot "ax" V Fz_D2 (Some ".") None None None with
  | Ok lines => Ok (Subplots "ax" :: (Line <$> lines))
  | Raised e => Raised e
  end.

Section cells.
Context `{Backend} `{!Part000.Setup}.

(** The scanning cell and then the plotting cell, which reads the mesh
    [V] and the array [Fz_D2] the first one left. *)
Definition scan_and_plot (eq : string) (x v : ndarray) (name : string)
    (progress_bar : bool) : M (list drawing) :=
  let* r := Part000.force_scan eq x v name progress_bar in
  lift (plot_cell (meshgrid x v).2 r.2).

End cells.
End Part000Cells.

(** ** The other cells of [two_three_forces.ipynb] *)

Module TwoThreeCells.
Import Numpy Pylcp Pyplot.
#[local] Open Scope monad_scope.

(** The field scale [H_0], in tesla, from rounded constants. *)
Definition hbar : float := 6.58e-16%float.
Definition gamma : float := (2.0 * 3.14 * 6.0 * 1e6)%float.
Definition muB : float := 5.788e-5%float.
Definition h0 : float := (hbar * gamma / muB)%float.

(** [sub in s] on strings. *)
Fixpoint contains (sub s : string) : bool :=
  String.prefix sub s ||
  match s with EmptyString => false | String _ s' => contains sub s' end.

(** Dashed for the labels that mention [phi], solid for the others. *)
Definition linestyle_of (key : string) : string :=
  if contains "phi" key then "--" else "-".

Section cells.
Context `{Backend} `{!TwoThree.Setup}.

(** One call [a.plot(v, obe[key].profile['molasses'].F[2], label=key,
    linestyle=linestyle, linewidth=0.75)]. *)
Definition plot_curve (ax : string) (v : ndarray) (obe : gmap string addr)
    (key linestyle : string) : M (list drawing) :=
  emit (EvGetItem key);;
  let* o := getitem obe key in
  let* t := load o in
  let* fp := getitem (profile t) "molasses" in
  let* lines := lift (plot ax v (component (F fp) 2) None (Some key) (Some linestyle)
                        (Some 0.75%float)) in
  ret (Line <$> lines).

(** One turn of [for key in obe]; the drawings so far go in and come
    out. *)
Definition plot_body (v : ndarray) (obe : gmap string addr) (fig : list drawing)
    (key : string) : M (list drawing) :=
  let linestyle := linestyle_of key in
  let* l1 := plot_curve "ax" v obe key linestyle in
  let* l2 := plot_curve "axins" v obe key linestyle in
  ret (fig ++ l1 ++ l2).

Fixpoint plot_loop (v : ndarray) (obe : gmap string addr) (keys : list string)
    (fig : list drawing) : M (list drawing) :=
  match keys with
  | [] => ret fig
  | key :: keys' =>
      let* fig' := plot_body v obe fig key in
      plot_loop v obe keys' fig'
  end.

(** The plotting cell as a function of what it reads: the velocity axis
    and the result mapping.  [for key in obe] visits the keys in the
    order in which they were inserted, given as [order]. *)
Definition plot_cell (v : ndarray) (obe : gmap string addr) (order : list string)
    : M (list drawing) :=
  let* fig := plot_loop v obe order
                [Subplots "ax"; InsetAxes "axins" "ax" 1.0%float 0.8%float] in
  ret (fig ++ [SetXlim "ax" (-5.0)%float 5.0%float;
               SetXlabel "ax" "$v/(\Gamma/k)$";
               SetYlabel "ax" "$f/(\hbar k \Gamma)$";
               SetXlim "axins" (-0.15)%float 0.15%float;
               SetYlim "axins" (-0.03)%float 0.03%float;
               Legend "ax" "lower right";
               Savefig "force.png"]).


End cells.
End TwoThreeCells.

(** ** A concrete library to run the notebooks on *)

Module Demo.
Import Numpy Pylcp.

(** Hamiltonians are kept as the arguments they were asked for, beam
    collections as the list of their beams. *)
#[export] Instance physics : Physics := {| hamiltonian := Z * float; laserBeams := list beam |}.

(** A friction force along z, [F = (0, 0, -v_z)], found everywhere. *)
Definition damping (ar : trap_args) (kw : kwargs) (r v : vec3) : outcome vec3 :=
  Ok (0, 0, - v.2)%float.

(** Whether the first beam of a collection is given in spherical
    coordinates. *)
Definition spherical (l : list beam) : bool :=
  match l with
  | b :: _ => String.eqb (pol_coord b) "spherical"
  | [] => false
  end.

(** The same force from a solver that gives up above unit speed when the
    polarisations are spherical. *)
Definition damping_limited (ar : trap_args) (kw : kwargs) (r v : vec3) : outcome vec3 :=
  if (1 <? abs v.2)%float && spherical (beams ar)
  then Raised (Exception "RuntimeError" "no convergence")
  else Ok (0, 0, - v.2)%float.

Definition backend : Backend :=
  {| pylcp_laserBeams := λ l _, l; find_equilibrium_force := damping |}.

Definition backend_limited : Backend :=
  {| pylcp_laserBeams := λ l _, l; find_equilibrium_force := damping_limited |}.

#[export] Instance setup000 : Part000.Setup :=
  {| Part000.hamiltonian_D2 := (0%Z, 0%float);
     Part000.laserBeams_D2 :=
       [ {| kvec := (0, 0, 1)%float; pol := (0, 0, 1)%float; pol_coord := "spherical";
            delta := (-2)%float; s := 1%float |} ] |}.

#[export] Instance setup23 : TwoThree.Setup :=
  {| TwoThree.return_hamiltonian := λ Fl Delta, (Fl, Delta) |}.

(** Small axes. *)
Definition x2 : ndarray := array1 [0; 0.1]%float.
Definition v2 : ndarray := array1 [0.01; 0.5]%float.
Definition v3 : ndarray := array1 [0.01; 0.5; 2.5]%float.

(** A fresh interpreter. *)
Definition fresh : world := {| heap := []; trace := [] |}.

(** Three polarisation entries, the second one spherical; and one. *)
Definition three_pols : Python.dict (vec3 * vec3) :=
  Python.mk_dict [("lin", ((1, 0, 0), (1, 0, 0))); ("circ", ((0, 0, 1), (1, 0, 0)));
                  ("perp", ((1, 0, 0), (0, 1, 0)))]%float
                 ltac:(by apply (bool_decide_unpack _); vm_compute).

Definition default_pols : Python.dict (vec3 * vec3) :=
  Python.mk_dict [("default", ((0, 0, 1), (1, 0, 0)))]%float (NoDup_singleton _).

End Demo.

(** ** What a run amounts to *)

Module Denotation.
Import Numpy Pylcp.

(** An array whose data fill its shape. *)
Definition well_formed (a : ndarray) : Prop := length (data a) = size_of (shape a).

(** [l] followed by zeros up to length [n]. *)
Definition pad (n : nat) (l : list float) : list float :=
  l ++ replicate (n - length l) 0%float.

(** The force array once the forces [fs] of the first points are stored:
    three planes, each padded with the zeros it started from. *)
Definition filled (sh : list nat) (fs : list vec3) : ndarray :=
  {| shape := 3 :: sh;
     data := pad (size_of sh) (fs.*1.*1) ++ pad (size_of sh) (fs.*1.*2)
             ++ pad (size_of sh) (fs.*2) |}.

(** The points of a scan along z: nothing in x and y. *)
Definition along_z (l : list float) : list vec3 := (λ z, (0, 0, z)%float) <$> l.

Definition raised_or {A} (e : option exn) (a : A) : outcome A :=
  match e with None => Ok a | Some e => Raised e end.

Section scan.
Context `{Backend}.

(** The forces found along a list of points, up to the first point where
    the solver raises, and the exception raised there. *)
Fixpoint scan (ar : trap_args) (kw : kwargs) (pts : list (vec3 * vec3))
    : list vec3 * option exn :=
  match pts with
  | [] => ([], None)
  | (r, v) :: pts' =>
      match find_equilibrium_force ar kw r v with
      | Ok f => let '(fs, e) := scan ar kw pts' in (f :: fs, e)
      | Raised e => ([], Some e)
      end
  end.

(** The events of the loop over the points, from point number [i] on. *)
Fixpoint scan_events (self : addr) (name : string) (ar : trap_args) (kw : kwargs)
    (progress_bar : bool) (total i : nat) (pts : list (vec3 * vec3)) : list event :=
  match pts with
  | [] => []
  | (r, v) :: pts' =>
      EvForce self name r v ::
      match find_equilibrium_force ar kw r v with
      | Ok f => (if progress_bar then [EvProgress (S i) total] else [])
                ++ scan_events self name ar kw progress_bar total (S i) pts'
      | Raised e => []
      end
  end.

(** The object [t] after [generate_force_profile] ran on it with grids
    [R'] and [V'] (already stacked), whether it returned or raised. *)
Definition profiled (t : trap) (name : string) (R' V' : ndarray) (kw : kwargs) : trap :=
  {| args := args t;
     profile := <[name := {| R := R'; V := V';
                             F := filled (tail (shape R')) (scan (args t) kw (nditer R' V')).1 |}]>
                  (profile t) |}.

(** A grid along z stacked into one array of shape [(3,) + shape a]. *)
Definition stacked_z (a : ndarray) : ndarray :=
  {| shape := 3 :: shape a;
     data := replicate (size_of (shape a)) 0%float ++ replicate (size_of (shape a)) 0%float
             ++ data a |}.

(** The force profiles that can be reached through a result mapping. *)
Definition results (w : world) (obe : gmap string nat)
    : gmap string (option (gmap string force_profile)) :=
  (λ a, profile <$> heap w !! a) <$> obe.

(** The kinds of events. *)
Definition is_call (ev : event) : bool :=
  match ev with EvProfile _ _ _ _ _ => true | _ => false end.

Definition is_access (ev : event) : bool :=
  match ev with EvSetItem _ _ | EvGetItem _ => true | _ => false end.

Definition is_construction (ev : event) : bool :=
  match ev with EvNew _ _ => true | _ => false end.

Definition is_progress (ev : event) : bool :=
  match ev with EvProgress _ _ => true | _ => false end.

(** The events of a trace that are calls of [generate_force_profile], that
    are accesses to the result mapping, that are constructions. *)
Definition calls (tr : list event) : list event := filter (λ ev, is_call ev) tr.

Definition accesses (tr : list event) : list event := filter (λ ev, is_access ev) tr.

Definition constructions (tr : list event) : list event :=
  filter (λ ev, is_construction ev) tr.

(** A trace without its console output. *)
Definition silent (tr : list event) : list event :=
  filter (λ ev, negb (is_progress ev)) tr.

(** Two ends of a run that differ at most in console output: the same
    heap, the same outcome, the same trace once progress events are
    dropped. *)
Definition quiet_equiv {A} (r1 r0 : world * outcome A) : Prop :=
  heap r1.1 = heap r0.1 ∧ silent (trace r1.1) = silent (trace r0.1) ∧ r1.2 = r0.2.

(** Two computations that, from worlds differing at most in console
    output, reach such ends. *)
Definition sim {A} (m1 m0 : M A) : Prop :=
  ∀ w1 w0, heap w1 = heap w0 → silent (trace w1) = silent (trace w0) →
    quiet_equiv (m1 w1) (m0 w0).

(** Construction arguments with the magnetic field and the magnetic
    forces off. *)
Definition field_off (ar : trap_args) : Prop :=
  field ar = constantMagneticField (0, 0, 0)%float ∧
  (∀ R t, Field (field ar) R t = (0, 0, 0)%float) ∧
  include_mag_forces ar = false.

(** A number that is neither a zero nor a NaN. *)
Definition nonzero (f : float) : bool := (0 <? abs f)%float.

(** The points at which a trace sought a force. *)
Definition sought (tr : list event) : list (vec3 * vec3) :=
  omap (λ ev, match ev with EvForce _ _ r v => Some (r, v) | _ => None end) tr.

End scan.

(** *** The scan of [part_000] *)

Section part000.
Context `{Backend} `{!Part000.Setup}.

Definition scan_args (eq : string) : trap_args :=
  mk_trap_args _ (if String.eqb eq "rateeq" then rateeq else obe)
    Part000.laserBeams_D2 Part000.magField Part000.hamiltonian_D2 false None.

(** The (position, velocity) points of the mesh, row by row. *)
Definition mesh_points (x v : ndarray) : list (vec3 * vec3) :=
  zip (along_z (data (meshgrid x v).1)) (along_z (data (meshgrid x v).2)).

Definition scanned_profile (eq : string) (x v : ndarray) : force_profile :=
  {| R := stacked_z (meshgrid x v).1; V := stacked_z (meshgrid x v).2;
     F := filled [length (data v); length (data x)]
                 (scan (scan_args eq) [] (mesh_points x v)).1 |}.

Definition scanned_trap (eq : string) (x v : ndarray) (name : string) : trap :=
  {| args := scan_args eq; profile := <[name := scanned_profile eq x v]> ∅ |}.

Definition scanned_events (eq : string) (x v : ndarray) (name : string) (pb : bool)
    (a : nat) : list event :=
  let '(X, V) := meshgrid x v in
  EvNew a (scan_args eq) ::
  EvProfile a name (zeros (shape X), zeros (shape X), X) (zeros (shape V), zeros (shape V), V) [] ::
  scan_events a name (scan_args eq) [] pb (length (data v) * length (data x)) 0 (mesh_points x v).

End part000.

(** *** The sweep of [two_three_forces.ipynb] *)

Section twothree.
Context `{Backend} `{!TwoThree.Setup}.

Definition sweep_args (ham : hamiltonian) (s : float) (pol : vec3 * vec3) : trap_args :=
  mk_trap_args _ obe (TwoThree.return_lasers 0 s pol) TwoThree.magField ham false (Some true).

(** The points of the velocity scan at the origin. *)
Definition sweep_points (v : ndarray) : list (vec3 * vec3) :=
  zip (along_z (replicate (size_of (shape v)) 0%float)) (along_z (data v)).

Definition swept_profile (ham : hamiltonian) (s : float) (v : ndarray) (pol : vec3 * vec3)
    : force_profile :=
  {| R := stacked_z (zeros (shape v)); V := stacked_z v;
     F := filled (shape v)
                 (scan (sweep_args ham s pol) TwoThree.solver_kwargs (sweep_points v)).1 |}.

Definition swept_trap (ham : hamiltonian) (s : float) (v : ndarray) (pol : vec3 * vec3) : trap :=
  {| args := sweep_args ham s pol; profile := <[ "molasses" := swept_profile ham s v pol]> ∅ |}.

(** The exception that ends the scan of one configuration, if any. *)
Definition body_exn (ham : hamiltonian) (s : float) (v : ndarray) (pol : vec3 * vec3)
    : option exn :=
  (scan (sweep_args ham s pol) TwoThree.solver_kwargs (sweep_points v)).2.

Definition body_events (ham : hamiltonian) (s : float) (v : ndarray) (pb : bool)
    (a : nat) (key : string) (pol : vec3 * vec3) : list event :=
  [EvNew a (sweep_args ham s pol); EvSetItem key a; EvGetItem key;
   EvProfile a "molasses" (zeros (shape v), zeros (shape v), zeros (shape v))
             (zeros (shape v), zeros (shape v), v) TwoThree.solver_kwargs]
  ++ scan_events a "molasses" (sweep_args ham s pol) TwoThree.solver_kwargs pb
       (size_of (shape v)) 0 (sweep_points v).

(** The objects the loop creates, one per configuration reached. *)
Fixpoint swept (ham : hamiltonian) (s : float) (v : ndarray)
    (its : list (string * (vec3 * vec3))) : list trap :=
  match its with
  | [] => []
  | (k, pol) :: rest =>
      swept_trap ham s v pol ::
      match body_exn ham s v pol with Some _ => [] | None => swept ham s v rest end
  end.

(** The exception that ends the loop, if any: that of the first
    configuration whose scan raises. *)
Fixpoint sweep_exn (ham : hamiltonian) (s : float) (v : ndarray)
    (its : list (string * (vec3 * vec3))) : option exn :=
  match its with
  | [] => None
  | (k, pol) :: rest =>
      match body_exn ham s v pol with Some e => Some e | None => sweep_exn ham s v rest end
  end.

Fixpoint sweep_events (ham : hamiltonian) (s : float) (v : ndarray) (pb : bool)
    (a : nat) (its : list (string * (vec3 * vec3))) : list event :=
  match its with
  | [] => []
  | (k, pol) :: rest =>
      body_events ham s v pb a k pol ++
      match body_exn ham s v pol with
      | Some _ => []
      | None => sweep_events ham s v pb (S a) rest
      end
  end.

(** The result mapping after the keys were bound to consecutive
    addresses from [a] on. *)
Fixpoint bound (a : nat) (keys : list string) (obe : gmap string nat) : gmap string nat :=
  match keys with
  | [] => obe
  | k :: keys' => bound (S a) keys' (<[k := a]> obe)
  end.

End twothree.
End Denotation.

(** ** What the plotting cells draw *)

Module Drawn.
Import Numpy Pylcp Pyplot.


End Drawn.

(** * Properties *)

Section Facts.
Import Numpy Pylcp Denotation.
Context `{library : Backend} `{!Part000.Setup} `{!TwoThree.Setup}.
#[local] Open Scope monad_scope.

(** *** Arrays *)

Lemma size_of_cons n sh : size_of (n :: sh) = n * size_of sh.
Proof. reflexivity. Qed.

Lemma zeros_well_formed sh : well_formed (zeros sh).
Proof. unfold well_formed, zeros; simpl. apply length_replicate. Qed.

Lemma length_concat_const {A B} (k : list B) (f : B → list A) n :
  (∀ b, length (f b) = n) → length (concat (f <$> k)) = length k * n.
Proof.
  intros Hf. induction k as [|b k IH]; csimpl; [done|].
  rewrite length_app, Hf, IH. lia.
Qed.

Lemma meshgrid_shape x v :
  shape (meshgrid x v).1 = [length (data v); length (data x)] ∧
  shape (meshgrid x v).2 = [length (data v); length (data x)].
Proof. done. Qed.

Lemma meshgrid_well_formed x v :
  well_formed (meshgrid x v).1 ∧ well_formed (meshgrid x v).2.
Proof.
  unfold well_formed, meshgrid; simpl. split.
  - rewrite (length_concat_const (data v) (λ _, data x) (length (data x))); [lia|done].
  - rewrite (length_concat_const (data v) (λ vi, replicate (length (data x)) vi)
               (length (data x))); [lia|].
    intros b. apply length_replicate.
Qed.

Lemma length_pad n l : length l ≤ n → length (pad n l) = n.
Proof. intros Hl. unfold pad. rewrite length_app, length_replicate. lia. Qed.

Lemma pad_snoc n l x i :
  i = length l → length l < n → <[i := x]> (pad n l) = pad n (l ++ [x]).
Proof.
  intros -> Hl. unfold pad. rewrite length_app; simpl.
  replace (n - length l) with (S (n - (length l + 1))) by lia. simpl.
  rewrite <- (Nat.add_0_r (length l)) at 1.
  rewrite insert_app_r. simpl. by rewrite <- app_assoc.
Qed.

Lemma insert_planes {A} (a b c : list A) n i x y z :
  length a = n → length b = n → i < n →
  <[2 * n + i := z]> (<[n + i := y]> (<[i := x]> (a ++ b ++ c))) =
  <[i := x]> a ++ <[i := y]> b ++ <[i := z]> c.
Proof.
  intros Ha Hb Hi.
  rewrite insert_app_l by lia.
  replace (n + i) with (length (<[i := x]> a) + i) by (rewrite length_insert; lia).
  rewrite insert_app_r, (insert_app_l b c) by lia.
  replace (2 * n + i) with
    (length (<[i := x]> a) + (length (<[i := y]> b) + i)) by (rewrite !length_insert; lia).
  by rewrite !insert_app_r.
Qed.

Lemma pad_full n l : length l = n → pad n l = l.
Proof. intros <-. unfold pad. rewrite Nat.sub_diag. simpl. apply app_nil_r. Qed.

Lemma zeros_filled sh : zeros (3 :: sh) = filled sh [].
Proof.
  unfold zeros, filled, pad; simpl. f_equal.
  rewrite !Nat.sub_0_r, Nat.add_0_r, !replicate_add. done.
Qed.

(** Storing the force of point number [length fs] extends the stored
    prefix by one. *)
Lemma set_column_filled sh fs f :
  length fs < size_of sh →
  set_column (filled sh fs) (length fs) f = filled sh (fs ++ [f]).
Proof.
  intros Hlt. destruct f as [[f0 f1] f2]. unfold set_column, filled; simpl.
  f_equal. change (size_of sh + (size_of sh + 0)) with (2 * size_of sh).
  rewrite insert_planes
    by (try (apply length_pad; rewrite !length_fmap); lia).
  rewrite !fmap_app; csimpl.
  by rewrite !pad_snoc by (rewrite ?length_fmap; lia).
Qed.

(** *** The loop over the grid *)

Lemma world_eta (w : world) : {| heap := heap w; trace := trace w |} = w.
Proof. by destruct w. Qed.

(** Writing back what an object already holds changes nothing. *)
Lemma heap_insert_same (hp : list trap) self t name fp :
  hp !! self = Some t → profile t !! name = Some fp →
  <[self := {| args := args t; profile := <[name := fp]> (profile t) |}]> hp = hp.
Proof.
  intros Hh Hp. apply list_insert_id. rewrite Hh. f_equal.
  destruct t as [ar pr]; simpl in *. f_equal. by rewrite insert_id.
Qed.

Lemma foreach_force_at self name ar kw pb total sh Rr Vv pts :
  ∀ i done w t,
    size_of sh = total → i + length pts = total → length done = i →
    heap w !! self = Some t →
    profile t !! name = Some {| R := Rr; V := Vv; F := filled sh done |} →
    foreach (zip (seq i (length pts)) pts) (force_at self name ar kw pb total) w =
      ({| heap := <[self := {| args := args t;
                               profile := <[name := {| R := Rr; V := Vv;
                                                       F := filled sh (done ++ (scan ar kw pts).1) |}]>
                                            (profile t) |}]> (heap w);
          trace := trace w ++ scan_events self name ar kw pb total i pts |},
       raised_or (scan ar kw pts).2 tt).
Proof.
  induction pts as [|[r v] pts IH]; intros i done w t Hsh Hlen Hdone Hheap Hprof.
  - cbn [length seq zip zip_with foreach scan scan_events fst snd raised_or].
    rewrite !app_nil_r, (heap_insert_same _ _ _ _ _ Hheap Hprof). unfold ret.
    by rewrite world_eta.
  - simpl in Hlen. cbn [length seq zip zip_with foreach scan scan_events].
    unfold bind at 1. unfold force_at, bind at 1. unfold emit at 1. simpl.
    unfold bind at 1, lift at 1.
    destruct (find_equilibrium_force ar kw r v) as [f|e]; simpl.
    + unfold bind at 1, store_data, bind at 1, load at 1. simpl. rewrite Hheap.
      unfold bind at 1, getitem. rewrite Hprof. unfold ret at 1, store.
      simpl.
      set (t1 := {| args := args t;
                   profile := <[name := {| R := Rr; V := Vv;
                                           F := set_column (filled sh done) i f |}]> (profile t) |}).
      assert (Hstep : ∀ w1, heap w1 = <[self := t1]> (heap w) →
                foreach (zip (seq (S i) (length pts)) pts)
                        (force_at self name ar kw pb total) w1 =
                ({| heap := <[self := {| args := args t;
                               profile := <[name := {| R := Rr; V := Vv;
                                  F := filled sh (done ++ f :: (scan ar kw pts).1) |}]>
                                            (profile t) |}]> (heap w);
                    trace := trace w1 ++ scan_events self name ar kw pb total (S i) pts |},
                 raised_or (scan ar kw pts).2 tt)).
      { intros w1 Hw1.
        rewrite (IH (S i) (done ++ [f]) w1 t1); try done; try lia.
        - rewrite Hw1, list_insert_insert_eq. subst t1; simpl.
          by rewrite insert_insert_eq, <- app_assoc.
        - rewrite length_app; simpl; lia.
        - rewrite Hw1. apply list_lookup_insert_eq. by eapply lookup_lt_Some.
        - subst t1; simpl. rewrite lookup_insert_eq. do 2 f_equal.
          subst i. apply set_column_filled. lia. }
      destruct (scan ar kw pts) as [fs e] eqn:Hscan; simpl in *.
      destruct pb; simpl.
      * unfold emit; simpl. rewrite Hstep by done. simpl.
        by rewrite <- !app_assoc.
      * unfold ret at 1. rewrite Hstep by done. simpl.
        by rewrite <- !app_assoc.
    + rewrite app_nil_r, (heap_insert_same _ _ _ _ _ Hheap Hprof). done.
Qed.

(** *** Stacked grids and their points *)

Lemma columns_stacked sh d0 d1 d2 :
  length d0 = size_of sh → length d1 = size_of sh → length d2 = size_of sh →
  columns {| shape := 3 :: sh; data := d0 ++ d1 ++ d2 |} = zip (zip d0 d1) d2.
Proof.
  intros Hd0 Hd1 Hd2. unfold columns, component; simpl. rewrite !Nat.add_0_r.
  rewrite drop_0, (take_app_length' d0) by done.
  rewrite (drop_app_length' d0), (take_app_length' d1) by done.
  rewrite (drop_app_add' d0), (drop_app_length' d1) by done.
  by rewrite take_ge by lia.
Qed.

Lemma zip_zeros_along_z n l :
  length l = n → zip (zip (replicate n 0%float) (replicate n 0%float)) l = along_z l.
Proof.
  revert n. induction l as [|z l IH]; intros [|n] Hn; simplify_eq/=; [done|].
  by rewrite IH.
Qed.

Lemma array3_zeros sh a :
  shape a = sh →
  array3 (zeros sh) (zeros sh) a =
    Some {| shape := 3 :: sh;
            data := replicate (size_of sh) 0%float ++ replicate (size_of sh) 0%float ++ data a |}.
Proof. intros <-. unfold array3; simpl. by rewrite decide_True. Qed.

(** The stacked grid of a scan along z and the points it holds. *)
Lemma columns_along_z sh a :
  well_formed a → shape a = sh →
  columns {| shape := 3 :: sh;
             data := replicate (size_of sh) 0%float ++ replicate (size_of sh) 0%float ++ data a |}
  = along_z (data a).
Proof.
  intros Hwf <-. rewrite columns_stacked by (by rewrite ?length_replicate).
  by apply zip_zeros_along_z.
Qed.

Lemma length_along_z l : length (along_z l) = length l.
Proof. apply length_fmap. Qed.

(** *** One call of [generate_force_profile] *)

Lemma generate_force_profile_run self R V name kw pb w t R' V' sh :
  heap w !! self = Some t →
  array3 R.1.1 R.1.2 R.2 = Some R' → array3 V.1.1 V.1.2 V.2 = Some V' →
  shape R' = 3 :: sh → shape V' = 3 :: sh →
  length (nditer R' V') = size_of sh →
  generate_force_profile self R V name kw pb w =
    ({| heap := <[self := profiled t name R' V' kw]> (heap w);
        trace := trace w ++ EvProfile self name R V kw ::
                 scan_events self name (args t) kw pb (size_of sh) 0 (nditer R' V') |},
     raised_or (scan (args t) kw (nditer R' V')).2 tt).
Proof.
  intros Hheap HR HV HshR HshV Hlen.
  unfold generate_force_profile, np_array.
  unfold bind at 1, emit at 1. simpl.
  rewrite HR. unfold bind at 1, ret at 1.
  rewrite HV. unfold bind at 1, ret at 1.
  rewrite decide_True by congruence.
  unfold bind at 1, ret at 1. unfold bind at 1, load at 1. simpl. rewrite Hheap.
  unfold bind at 1, store at 1. simpl.
  rewrite Hlen.
  rewrite <- Hlen at 1.
  set (t1 := {| args := args t;
               profile := <[name := {| R := R'; V := V'; F := zeros (shape R') |}]>
                            (profile t) |}).
  rewrite (foreach_force_at self name (args t) kw pb (size_of sh) sh R' V'
             (nditer R' V') 0 [] _ t1); simpl; try done.
  - rewrite list_insert_insert_eq, insert_insert_eq. unfold profiled.
    rewrite HshR. simpl. by rewrite <- app_assoc.
  - apply list_lookup_insert_eq. by eapply lookup_lt_Some.
  - rewrite lookup_insert_eq, HshR. by rewrite zeros_filled.
Qed.

(** *** The scan of [part_000] as a whole *)

Lemma new_trap_run ar w :
  new_trap ar w =
    ({| heap := heap w ++ [{| args := ar; profile := ∅ |}];
        trace := trace w ++ [EvNew (length (heap w)) ar] |}, Ok (length (heap w))).
Proof. reflexivity. Qed.

Lemma nditer_stacked_z a b :
  well_formed a → well_formed b →
  nditer (stacked_z a) (stacked_z b) = zip (along_z (data a)) (along_z (data b)).
Proof.
  intros Ha Hb. unfold nditer, stacked_z. by rewrite !columns_along_z.
Qed.

Lemma size_of_mesh x v :
  size_of [length (data v); length (data x)] = length (data v) * length (data x).
Proof. simpl. lia. Qed.

Lemma length_mesh_points x v :
  length (mesh_points x v) = length (data v) * length (data x).
Proof.
  unfold mesh_points. rewrite length_zip_with, !length_along_z.
  destruct (meshgrid_well_formed x v) as [HX HV]. rewrite HX, HV.
  simpl. lia.
Qed.

Lemma force_scan_run eq x v name pb w :
  Part000.force_scan eq x v name pb w =
    ({| heap := heap w ++ [scanned_trap eq x v name];
        trace := trace w ++ scanned_events eq x v name pb (length (heap w)) |},
     raised_or (scan (scan_args eq) [] (mesh_points x v)).2
               (length (heap w), component (F (scanned_profile eq x v)) 2)).
Proof.
  destruct (meshgrid_well_formed x v) as [HwX HwV].
  destruct (meshgrid_shape x v) as [HsX HsV].
  unfold Part000.force_scan, scanned_events.
  assert (Hnew : (if String.eqb eq "rateeq"
                  then pylcp_rateeq Part000.laserBeams_D2 Part000.magField
                         Part000.hamiltonian_D2 false
                  else pylcp_obe Part000.laserBeams_D2 Part000.magField
                         Part000.hamiltonian_D2 false None) = new_trap (scan_args eq)).
  { unfold scan_args. by destruct (String.eqb eq "rateeq"). }
  destruct (meshgrid x v) as [X V] eqn:Hmesh. simpl in HwX, HwV, HsX, HsV.
  assert (Hpts : nditer (stacked_z X) (stacked_z V) = mesh_points x v).
  { unfold mesh_points. rewrite Hmesh. by apply nditer_stacked_z. }
  rewrite Hnew. unfold bind at 1. rewrite new_trap_run.
  unfold bind at 1.
  rewrite (generate_force_profile_run _ _ _ _ _ _ _ {| args := scan_args eq; profile := ∅ |}
             (stacked_z X) (stacked_z V) (shape X)); simpl.
  - rewrite Hpts.
    replace (<[length (heap w) := profiled {| args := scan_args eq; profile := ∅ |} name
                                    (stacked_z X) (stacked_z V) []]>
               (heap w ++ [{| args := scan_args eq; profile := ∅ |}]))
      with (heap w ++ [scanned_trap eq x v name]).
    2:{ rewrite insert_app_r_alt, Nat.sub_diag by done. simpl. do 2 f_equal.
        unfold profiled, scanned_trap, scanned_profile.
        rewrite Hmesh, Hpts. cbn [args profile fst snd stacked_z shape tail].
        by rewrite HsX. }
    rewrite HsX, size_of_mesh.
    destruct (scan (scan_args eq) [] (mesh_points x v)) as [fs [e|]] eqn:Hscan; simpl.
    + by rewrite <- app_assoc.
    + unfold bind at 1, load at 1. simpl. rewrite list_lookup_middle by done.
      unfold bind at 1, getitem. simpl. rewrite lookup_insert_eq. unfold ret.
      unfold scanned_profile. rewrite Hscan. simpl.
      by rewrite <- app_assoc.
  - by apply list_lookup_middle.
  - by apply array3_zeros.
  - apply array3_zeros. congruence.
  - done.
  - by rewrite HsV, HsX.
  - rewrite Hpts, length_mesh_points, HsX. simpl. lia.
Qed.

(** *** The sweep of [two_three_forces.ipynb] as a whole *)

Lemma lookup_items_NoDup {V} (l : list (string * V)) k x :
  NoDup (l.*1) → (k, x) ∈ l → Python.lookup_items l k = Some x.
Proof.
  induction l as [|[k0 x0] l IH]; csimpl; intros Hnd Hin.
  - by apply elem_of_nil in Hin.
  - apply NoDup_cons in Hnd as [Hk0 Hnd].
    apply elem_of_cons in Hin as [[= -> ->]|Hin].
    + by rewrite decide_True.
    + rewrite decide_False; [by apply IH|].
      intros ->. apply Hk0. by apply (list_elem_of_fmap_2 fst) in Hin.
Qed.

Lemma get_items {V} (d : Python.dict V) :
  Forall (λ kp, Python.get d kp.1 = Some kp.2) (Python.items d).
Proof.
  apply Forall_forall. intros [k x] Hin. simpl.
  apply lookup_items_NoDup; [apply Python.items_NoDup | done].
Qed.

Lemma length_sweep_points v :
  well_formed v → length (sweep_points v) = size_of (shape v).
Proof.
  intros Hv. unfold sweep_points.
  rewrite length_zip_with, !length_along_z, length_replicate, Hv. lia.
Qed.

Lemma sweep_body_run pols ham s v pb obe key pol w :
  Python.get pols key = Some pol → well_formed v →
  TwoThree.sweep_body pols ham s v pb obe key w =
    ({| heap := heap w ++ [swept_trap ham s v pol];
        trace := trace w ++ body_events ham s v pb (length (heap w)) key pol |},
     raised_or (body_exn ham s v pol) (<[key := length (heap w)]> obe)).
Proof.
  intros Hget Hv. unfold TwoThree.sweep_body. rewrite Hget.
  unfold bind at 1, ret at 1. unfold bind at 1.
  change (pylcp_obe (TwoThree.return_lasers 0 s pol) TwoThree.magField ham false (Some true))
    with (new_trap (sweep_args ham s pol)).
  rewrite new_trap_run.
  unfold bind at 1, emit at 1. cbn [heap trace].
  unfold bind at 1, emit at 1. cbn [heap trace].
  unfold bind at 1, getitem. rewrite lookup_insert_eq. unfold ret at 1.
  assert (Hpts : nditer (stacked_z (zeros (shape v))) (stacked_z v) = sweep_points v).
  { rewrite nditer_stacked_z by (done || apply zeros_well_formed). done. }
  unfold bind at 1.
  rewrite (generate_force_profile_run _ _ _ _ _ _ _ {| args := sweep_args ham s pol; profile := ∅ |}
             (stacked_z (zeros (shape v))) (stacked_z v) (shape v)); cbn [heap trace].
  - rewrite Hpts.
    replace (<[length (heap w) := profiled {| args := sweep_args ham s pol; profile := ∅ |}
                 "molasses" (stacked_z (zeros (shape v))) (stacked_z v) TwoThree.solver_kwargs]>
               (heap w ++ [{| args := sweep_args ham s pol; profile := ∅ |}]))
      with (heap w ++ [swept_trap ham s v pol]).
    2:{ rewrite insert_app_r_alt, Nat.sub_diag by done. simpl. do 2 f_equal.
        unfold profiled, swept_trap, swept_profile. by rewrite Hpts. }
    unfold body_exn, body_events. cbn [args].
    destruct (scan (sweep_args ham s pol) TwoThree.solver_kwargs (sweep_points v))
      as [fs [e|]]; cbn [raised_or snd]; unfold ret; rewrite <- !app_assoc; done.
  - by apply list_lookup_middle.
  - by apply array3_zeros.
  - by apply array3_zeros.
  - done.
  - done.
  - by rewrite Hpts, length_sweep_points.
Qed.


Lemma sweep_loop_run pols ham s v pb its :
  ∀ obe w,
    Forall (λ kp, Python.get pols kp.1 = Some kp.2) its → well_formed v →
    TwoThree.sweep_loop pols ham s v pb (its.*1) obe w =
      ({| heap := heap w ++ swept ham s v its;
          trace := trace w ++ sweep_events ham s v pb (length (heap w)) its |},
       raised_or (sweep_exn ham s v its) (bound (length (heap w)) (its.*1) obe)).
Proof.
  induction its as [|[k pol] its IH]; intros obe w Hits Hv.
  - simpl. unfold ret. by rewrite !app_nil_r, world_eta.
  - apply Forall_cons in Hits as [Hk Hits]. simpl in Hk.
    cbn [fmap list_fmap fst TwoThree.sweep_loop swept sweep_exn sweep_events bound].
    unfold bind at 1. rewrite (sweep_body_run _ _ _ _ _ _ _ pol) by done.
    destruct (body_exn ham s v pol) as [e|]; cbn [raised_or].
    + by rewrite app_nil_r.
    + rewrite IH by done. cbn [heap trace].
      rewrite length_app, Nat.add_1_r, <- !app_assoc. done.
Qed.

Lemma sweep_run pols v pb w :
  well_formed v →
  TwoThree.sweep pols v pb w =
    ({| heap := heap w ++ swept (TwoThree.return_hamiltonian 2 TwoThree.det) TwoThree.s v
                            (Python.items pols);
        trace := trace w ++ sweep_events (TwoThree.return_hamiltonian 2 TwoThree.det)
                              TwoThree.s v pb (length (heap w)) (Python.items pols) |},
     raised_or (sweep_exn (TwoThree.return_hamiltonian 2 TwoThree.det) TwoThree.s v
                  (Python.items pols))
               (bound (length (heap w)) (Python.keys pols) ∅)).
Proof.
  intros Hv. unfold TwoThree.sweep, Python.keys.
  apply sweep_loop_run; [apply get_items | done].
Qed.

(** *** Forces found and points sought *)

Lemma scan_length_le ar kw pts : length (scan ar kw pts).1 ≤ length pts.
Proof.
  induction pts as [|[r v] pts IH]; simpl; [done|].
  destruct (find_equilibrium_force ar kw r v); simpl; [|lia].
  destruct (scan ar kw pts); simpl in *. lia.
Qed.

Lemma scan_ok_length ar kw pts :
  (scan ar kw pts).2 = None → length (scan ar kw pts).1 = length pts.
Proof.
  induction pts as [|[r v] pts IH]; simpl; [done|].
  destruct (find_equilibrium_force ar kw r v); simpl; [|done].
  destruct (scan ar kw pts); simpl in *. intros He. by rewrite IH.
Qed.

(** Where the solver answers at every point, the scan does not raise. *)
Lemma scan_all_ok ar kw pts :
  Forall (λ p, ∃ f, find_equilibrium_force ar kw p.1 p.2 = Ok f) pts →
  (scan ar kw pts).2 = None.
Proof.
  induction 1 as [|[r v] pts [f Hf] _ IH]; simpl in *; [done|].
  rewrite Hf. by destruct (scan ar kw pts).
Qed.

(** Where it raises first after answering along [pre], the scan stops
    there with that exception. *)
Lemma scan_raises ar kw pre r v post e :
  Forall (λ p, ∃ f, find_equilibrium_force ar kw p.1 p.2 = Ok f) pre →
  find_equilibrium_force ar kw r v = Raised e →
  (scan ar kw (pre ++ (r, v) :: post)).2 = Some e ∧
  length (scan ar kw (pre ++ (r, v) :: post)).1 = length pre.
Proof.
  intros Hpre Hr. induction Hpre as [|[r0 v0] pre [f Hf] _ IH]; simpl in *.
  - by rewrite Hr.
  - rewrite Hf. destruct (scan ar kw (pre ++ (r, v) :: post)); simpl in *.
    destruct IH as [-> ->]. done.
Qed.

Lemma length_filled sh fs :
  length fs ≤ size_of sh → length (data (filled sh fs)) = 3 * size_of sh.
Proof.
  intros Hle. unfold filled; simpl.
  rewrite !length_app, !length_pad by (by rewrite ?length_fmap). lia.
Qed.

Lemma sought_app tr1 tr2 : sought (tr1 ++ tr2) = sought tr1 ++ sought tr2.
Proof. apply omap_app. Qed.

(** The points sought by the loop are those of the grid up to and
    including the first where the solver raises. *)
Lemma sought_scan_events self name ar kw pb total i pts :
  sought (scan_events self name ar kw pb total i pts) =
    take (length (scan ar kw pts).1 +
          match (scan ar kw pts).2 with Some _ => 1 | None => 0 end) pts.
Proof.
  revert i. induction pts as [|[r v] pts IH]; intros i; simpl; [done|].
  destruct (find_equilibrium_force ar kw r v) as [f|e]; simpl.
  - unfold sought in *. csimpl. rewrite omap_app, IH.
    destruct (scan ar kw pts) as [fs e]; simpl.
    assert (Hpb : omap (λ ev, match ev with EvForce _ _ r0 v0 => Some (r0, v0) | _ => None end)
                    (if pb then [EvProgress (S i) total] else []) = []) by (by destruct pb).
    by rewrite Hpb.
  - done.
Qed.


(** *** The objects and the mapping a sweep leaves *)

Lemma swept_ok ham s v its :
  sweep_exn ham s v its = None →
  swept ham s v its = (λ kp, swept_trap ham s v kp.2) <$> its ∧
  Forall (λ kp, body_exn ham s v kp.2 = None) its.
Proof.
  induction its as [|[k pol] its IH]; simpl; [done|].
  destruct (body_exn ham s v pol) eqn:He; [done|].
  intros Hexn. destruct (IH Hexn) as [-> Hall]. split; [done|].
  by constructor.
Qed.

Lemma bound_lookup_notin a keys (obe : gmap string nat) k :
  k ∉ keys → bound a keys obe !! k = obe !! k.
Proof.
  revert a obe. induction keys as [|k0 keys IH]; intros a obe Hk; simpl; [done|].
  apply not_elem_of_cons in Hk as [Hne Hk].
  rewrite IH by done. by rewrite lookup_insert_ne.
Qed.

Lemma bound_lookup a keys (obe : gmap string nat) i k :
  NoDup keys → keys !! i = Some k → bound a keys obe !! k = Some (a + i).
Proof.
  revert a obe i. induction keys as [|k0 keys IH]; intros a obe i Hnd Hi; [done|].
  apply NoDup_cons in Hnd as [Hk0 Hnd]. destruct i as [|i]; simplify_eq/=.
  - rewrite bound_lookup_notin by done. rewrite lookup_insert_eq. f_equal. lia.
  - rewrite (IH _ _ i) by done. f_equal. lia.
Qed.


(** What a key of the dictionary leads to after a successful sweep. *)
Lemma sweep_ok_entry pols v pb w w' obe i key pol :
  well_formed v →
  TwoThree.sweep pols v pb w = (w', Ok obe) →
  Python.items pols !! i = Some (key, pol) →
  obe !! key = Some (length (heap w) + i) ∧
  heap w' !! (length (heap w) + i) =
    Some (swept_trap (TwoThree.return_hamiltonian 2 TwoThree.det) TwoThree.s v pol) ∧
  body_exn (TwoThree.return_hamiltonian 2 TwoThree.det) TwoThree.s v pol = None.
Proof.
  intros Hv Hrun Hi. rewrite sweep_run in Hrun by done.
  destruct (sweep_exn _ _ v (Python.items pols)) eqn:Hexn; simplify_eq/=.
  destruct (swept_ok _ _ _ _ Hexn) as [-> Hall]. split_and!.
  - apply bound_lookup; [apply Python.items_NoDup|].
    unfold Python.keys. by rewrite list_lookup_fmap, Hi.
  - rewrite lookup_app_r, Nat.add_comm, Nat.add_sub by lia.
    by rewrite list_lookup_fmap, Hi.
  - by apply (proj1 (Forall_lookup _ _) Hall _ _ Hi).
Qed.

(** *** C1 *)

(** C1. After a successful scan of [part_000] over [P] positions and [V]
    velocities, the force array stored under the profile's name has 3
    components per grid point and the shape [(3,) + X.shape], which is
    [(3, V, P)]; a mesh of one position and one velocity where the solver
    answers gives an array of shape [(3, 1, 1)] and no exception.  After
    a successful sweep of [two_three_forces.ipynb] every label's array
    has shape [(3,) + v.shape], again 3 components per grid point. *)
Theorem force_array_shape :
  (∀ eq x v name pb w w' a Fz,
     Part000.force_scan eq x v name pb w = (w', Ok (a, Fz)) →
     ∃ t fp, heap w' !! a = Some t ∧ profile t !! name = Some fp ∧
       shape (F fp) = [3; length (data v); length (data x)] ∧
       length (data (F fp)) = 3 * (length (data x) * length (data v)) ∧
       length (columns (F fp)) = length (nditer (R fp) (V fp)) ∧
       Fz = component (F fp) 2 ∧
       shape Fz = [length (data v); length (data x)])
  ∧
  (∀ eq x0 v0 name pb w f,
     find_equilibrium_force (scan_args eq) [] (0, 0, x0)%float (0, 0, v0)%float = Ok f →
     ∃ w' a Fz t fp,
       Part000.force_scan eq (array1 [x0]) (array1 [v0]) name pb w = (w', Ok (a, Fz)) ∧
       heap w' !! a = Some t ∧ profile t !! name = Some fp ∧
       shape (F fp) = [3; 1; 1] ∧ data (F fp) = [f.1.1; f.1.2; f.2])
  ∧
  (∀ pols v pb w w' obe,
     well_formed v →
     TwoThree.sweep pols v pb w = (w', Ok obe) →
     ∀ key, key ∈ Python.keys pols →
       ∃ a t fp, obe !! key = Some a ∧ heap w' !! a = Some t ∧
         profile t !! "molasses" = Some fp ∧
         shape (F fp) = 3 :: shape v ∧
         length (data (F fp)) = 3 * size_of (shape v)).
Proof.
  split_and!.
  - intros eq x v name pb w w' a Fz Hrun. rewrite force_scan_run in Hrun.
    destruct (scan (scan_args eq) [] (mesh_points x v)) as [fs e] eqn:Hscan.
    destruct e as [e|]; simplify_eq/=.
    assert (Hfs : length fs = length (data v) * length (data x)).
    { rewrite <- length_mesh_points.
      change fs with (fs, @None exn).1. rewrite <- Hscan. apply scan_ok_length.
      by rewrite Hscan. }
    exists (scanned_trap eq x v name), (scanned_profile eq x v).
    split_and!; try done.
    + by apply list_lookup_middle.
    + apply lookup_insert_eq.
    + unfold scanned_profile; cbn [F]. rewrite Hscan; cbn [fst].
      rewrite length_filled by (rewrite size_of_mesh; lia).
      rewrite size_of_mesh. lia.
    + destruct (meshgrid_well_formed x v) as [HX HV].
      unfold scanned_profile; cbn [F R V]. rewrite Hscan; cbn [fst].
      rewrite nditer_stacked_z by done.
      fold (mesh_points x v). rewrite length_mesh_points.
      unfold filled. rewrite !pad_full by (rewrite ?length_fmap, size_of_mesh; lia).
      rewrite columns_stacked by (rewrite ?length_fmap, size_of_mesh; lia).
      rewrite !length_zip_with, !length_fmap. lia.
  - intros eq x0 v0 name pb w f Hf.
    assert (Hscan : scan (scan_args eq) [] (mesh_points (array1 [x0]) (array1 [v0]))
                    = ([f], None)).
    { change (mesh_points (array1 [x0]) (array1 [v0]))
        with [((0, 0, x0)%float, (0, 0, v0)%float)].
      simpl. by rewrite Hf. }
    eexists _, _, _, (scanned_trap eq (array1 [x0]) (array1 [v0]) name),
      (scanned_profile eq (array1 [x0]) (array1 [v0])).
    rewrite force_scan_run, Hscan. cbn [raised_or snd]. split_and!; [done| | |done|].
    + by apply list_lookup_middle.
    + apply lookup_insert_eq.
    + unfold scanned_profile; cbn [F]. rewrite Hscan.
      by destruct f as [[f0 f1] f2].
  - intros pols v pb w w' obe Hv Hrun key Hkey.
    apply list_elem_of_lookup in Hkey as [i Hi].
    unfold Python.keys in Hi. rewrite list_lookup_fmap in Hi.
    destruct (Python.items pols !! i) as [[k pol]|] eqn:Hit; simplify_eq/=.
    destruct (sweep_ok_entry _ _ _ _ _ _ _ _ _ Hv Hrun Hit) as (Hobe & Hheap & Hexn).
    eexists _, _, _. split_and!; [done|done|apply lookup_insert_eq|done|].
    simpl. apply length_filled.
    rewrite <- (length_sweep_points v Hv). apply scan_length_le.
Qed.

(** *** C2 *)

(** C2 (amended). For the velocity sequence [0.01, 0.5, 2.5], the
    position [0.0] and the single label "default", a successful run leaves
    a mapping with exactly one entry, keyed "default".  In the mesh scan
    of [part_000] its force array has shape [(3, 3, 1)]: [np.meshgrid(x, v)]
    puts the velocity axis before the position axis.  In the sweep of
    [two_three_forces.ipynb], whose grid has no position axis, it has
    shape [(3, 3)]. *)
Theorem default_scenario_shape :
  (∀ eq pb w w' a Fz,
     Part000.force_scan eq (array1 [0.0%float]) (array1 [0.01; 0.5; 2.5]%float) "default" pb w
       = (w', Ok (a, Fz)) →
     ∃ t fp, heap w' !! a = Some t ∧ profile t = {["default" := fp]} ∧
             shape (F fp) = [3; 3; 1])
  ∧
  (∀ pb w w' obe,
     TwoThree.sweep Demo.default_pols (array1 [0.01; 0.5; 2.5]%float) pb w = (w', Ok obe) →
     ∃ a t fp, obe = {["default" := a]} ∧ heap w' !! a = Some t ∧
               profile t = {["molasses" := fp]} ∧ shape (F fp) = [3; 3]).
Proof.
  split.
  - intros eq pb w w' a Fz Hrun. rewrite force_scan_run in Hrun.
    destruct (scan _ _ _).2; simplify_eq/=.
    eexists _, _. split; [by apply list_lookup_middle|].
    split; [apply insert_empty | done].
  - intros pb w w' obe Hrun. rewrite sweep_run in Hrun by done.
    simpl in Hrun. destruct (body_exn _ _ _ _); simplify_eq/=.
    eexists _, _, _. split; [apply insert_empty|].
    split; [by apply list_lookup_middle|].
    split; [apply insert_empty | done].
Qed.

(** *** C3 *)

Lemma zip_along_replicate xs vi :
  zip (along_z xs) (along_z (replicate (length xs) vi)) =
    (λ xj, ((0, 0, xj), (0, 0, vi))%float) <$> xs.
Proof. induction xs as [|xj xs IH]; csimpl; [done|]. by rewrite <- IH. Qed.

(** The points of the mesh are the cross product of the two axes, the
    velocity varying slowest. *)
Lemma mesh_points_cross x v :
  mesh_points x v =
    concat ((λ vi, (λ xj, ((0, 0, xj), (0, 0, vi))%float) <$> data x) <$> data v).
Proof.
  unfold mesh_points, meshgrid; simpl.
  induction (data v) as [|vi vs IH]; csimpl; [done|].
  unfold along_z in *. rewrite !fmap_app.
  rewrite zip_with_app by (by rewrite !length_fmap, length_replicate).
  rewrite IH. f_equal. apply zip_along_replicate.
Qed.


Lemma sweep_points_along v :
  well_formed v →
  sweep_points v = (λ vi, ((0, 0, 0), (0, 0, vi))%float) <$> data v.
Proof.
  intros Hv. unfold sweep_points. rewrite <- Hv.
  induction (data v) as [|vi vs IH]; csimpl; [done|]. by rewrite <- IH.
Qed.


(** *** Traces by kind of event *)

(** A filter that drops force and progress events drops the whole loop
    over the grid. *)
Lemma filter_scan_events (P : event → bool) self name ar kw pb total i pts :
  (∀ a n r v, P (EvForce a n r v) = false) → (∀ d t, P (EvProgress d t) = false) →
  filter (λ ev, P ev) (scan_events self name ar kw pb total i pts) = [].
Proof.
  intros HF HP. revert i. induction pts as [|[r v] pts IH]; intros i; simpl; [done|].
  rewrite filter_cons_False by (by apply Is_true_false_2).
  destruct (find_equilibrium_force ar kw r v); [|done].
  rewrite filter_app, IH, app_nil_r. destruct pb; [|done].
  by rewrite filter_cons_False by (by apply Is_true_false_2).
Qed.

Lemma calls_body_events ham s v pb a key pol :
  calls (body_events ham s v pb a key pol) =
    [EvProfile a "molasses" (zeros (shape v), zeros (shape v), zeros (shape v))
       (zeros (shape v), zeros (shape v), v) TwoThree.solver_kwargs].
Proof.
  unfold calls, body_events. by rewrite filter_app, filter_scan_events.
Qed.

Lemma accesses_body_events ham s v pb a key pol :
  accesses (body_events ham s v pb a key pol) = [EvSetItem key a; EvGetItem key].
Proof.
  unfold accesses, body_events. by rewrite filter_app, filter_scan_events.
Qed.

Lemma constructions_body_events ham s v pb a key pol :
  constructions (body_events ham s v pb a key pol) = [EvNew a (sweep_args ham s pol)].
Proof.
  unfold constructions, body_events. by rewrite filter_app, filter_scan_events.
Qed.

Lemma sought_body_events ham s v pb a key pol :
  sought (body_events ham s v pb a key pol) =
    take (length (scan (sweep_args ham s pol) TwoThree.solver_kwargs (sweep_points v)).1 +
          match body_exn ham s v pol with Some _ => 1 | None => 0 end) (sweep_points v).
Proof.
  unfold body_events. rewrite sought_app. simpl. apply sought_scan_events.
Qed.

(** The events of a sweep in which no scan raises, kind by kind. *)
Lemma sweep_events_ok ham s v pb its :
  Forall (λ kp, body_exn ham s v kp.2 = None) its →
  ∀ a,
    calls (sweep_events ham s v pb a its) =
      imap (λ i _, EvProfile (a + i) "molasses"
                     (zeros (shape v), zeros (shape v), zeros (shape v))
                     (zeros (shape v), zeros (shape v), v) TwoThree.solver_kwargs) its ∧
    accesses (sweep_events ham s v pb a its) =
      concat (imap (λ i kp, [EvSetItem kp.1 (a + i); EvGetItem kp.1]) its) ∧
    constructions (sweep_events ham s v pb a its) =
      imap (λ i kp, EvNew (a + i) (sweep_args ham s kp.2)) its ∧
    sought (sweep_events ham s v pb a its) = concat (replicate (length its) (sweep_points v)).
Proof.
  induction 1 as [|[k pol] its Hk _ IH]; intros a; [done|]. simpl in Hk.
  destruct (IH (S a)) as (IHc & IHa & IHn & IHs).
  cbn [sweep_events length]. rewrite Hk.
  unfold calls, accesses, constructions in *.
  rewrite !filter_app, sought_app, IHc, IHa, IHn, IHs.
  fold (calls (body_events ham s v pb a k pol)).
  fold (accesses (body_events ham s v pb a k pol)).
  fold (constructions (body_events ham s v pb a k pol)).
  rewrite calls_body_events, accesses_body_events, constructions_body_events,
    sought_body_events, Hk.
  assert (Hfs : length (scan (sweep_args ham s pol) TwoThree.solver_kwargs (sweep_points v)).1
                = length (sweep_points v)) by (by apply scan_ok_length).
  rewrite Hfs, take_ge by lia.
  rewrite !imap_cons, !Nat.add_0_r. csimpl.
  assert (HS : ∀ i, S (a + i) = a + S i) by (intros; lia).
  split_and!; [| | |done].
  - f_equal. apply imap_ext. intros i x _. simpl. by rewrite HS.
  - do 3 f_equal. apply imap_ext. intros i x _. simpl. by rewrite HS.
  - f_equal. apply imap_ext. intros i x _. simpl. by rewrite HS.
Qed.

(** *** C4 *)

Lemma bound_dom a keys (obe : gmap string nat) :
  dom (bound a keys obe) = list_to_set keys ∪ dom obe.
Proof.
  revert a obe. induction keys as [|k keys IH]; intros a obe; simpl.
  - set_solver.
  - rewrite IH, dom_insert_L. set_solver.
Qed.

Lemma bound_size a keys : NoDup keys → size (bound a keys ∅) = length keys.
Proof.
  intros Hnd. rewrite <- size_dom, bound_dom, dom_empty_L, (right_id_L ∅ (∪)).
  by apply size_list_to_set.
Qed.

(** C4. The sweep enters [generate_force_profile] exactly once per
    configuration, in the order of the dictionary, each time on that
    configuration's own object and with the whole grid, and the force is
    sought at every grid point of every configuration; after a successful
    run the result mapping has exactly as many entries as there are
    labels, its keys are the labels, and each label leads to the object
    built from that label's polarisation. *)
Theorem one_call_per_configuration pols v pb w w' obe :
  well_formed v →
  TwoThree.sweep pols v pb w = (w', Ok obe) →
  ∃ new, trace w' = trace w ++ new ∧
    calls new =
      imap (λ i _, EvProfile (length (heap w) + i) "molasses"
                     (zeros (shape v), zeros (shape v), zeros (shape v))
                     (zeros (shape v), zeros (shape v), v) TwoThree.solver_kwargs)
           (Python.items pols) ∧
    length (calls new) = Python.len pols ∧
    sought new =
      concat (replicate (Python.len pols) ((λ vi, ((0, 0, 0), (0, 0, vi))%float) <$> data v)) ∧
    size obe = Python.len pols ∧
    dom obe = list_to_set (Python.keys pols) ∧
    ∀ i key pol, Python.items pols !! i = Some (key, pol) →
      ∃ t, obe !! key = Some (length (heap w) + i) ∧
           heap w' !! (length (heap w) + i) = Some t ∧
           args t = sweep_args (TwoThree.return_hamiltonian 2 TwoThree.det) TwoThree.s pol.
Proof.
  intros Hv Hrun. pose proof Hrun as Hrun'. rewrite sweep_run in Hrun' by done.
  destruct (sweep_exn _ _ v (Python.items pols)) eqn:Hexn; simplify_eq/=.
  destruct (swept_ok _ _ _ _ Hexn) as [_ Hall].
  destruct (sweep_events_ok _ _ v pb _ Hall (length (heap w))) as (Hc & _ & _ & Hs).
  eexists. split; [done|]. rewrite Hc, Hs. split_and!; try done.
  - by rewrite length_imap.
  - by rewrite sweep_points_along.
  - rewrite bound_size by apply Python.items_NoDup.
    unfold Python.keys, Python.len. by rewrite length_fmap.
  - rewrite bound_dom, dom_empty_L. set_solver.
  - intros i key pol Hi.
    destruct (sweep_ok_entry _ _ _ _ _ _ _ _ _ Hv Hrun Hi) as (Hobe & Hheap & _).
    by eexists.
Qed.

(** *** C5 *)

Lemma sweep_exn_app ham s v its1 its2 :
  sweep_exn ham s v (its1 ++ its2) =
    match sweep_exn ham s v its1 with Some e => Some e | None => sweep_exn ham s v its2 end.
Proof.
  induction its1 as [|[k pol] its1 IH]; simpl; [done|].
  by destruct (body_exn ham s v pol).
Qed.

Lemma swept_app ham s v its1 its2 :
  sweep_exn ham s v its1 = None →
  swept ham s v (its1 ++ its2) = swept ham s v its1 ++ swept ham s v its2.
Proof.
  induction its1 as [|[k pol] its1 IH]; simpl; [done|].
  destruct (body_exn ham s v pol); [done|]. intros He. by rewrite IH.
Qed.

Lemma sweep_events_app ham s v pb a its1 its2 :
  sweep_exn ham s v its1 = None →
  sweep_events ham s v pb a (its1 ++ its2) =
    sweep_events ham s v pb a its1 ++ sweep_events ham s v pb (a + length its1) its2.
Proof.
  revert a. induction its1 as [|[k pol] its1 IH]; intros a; simpl.
  - by rewrite Nat.add_0_r.
  - destruct (body_exn ham s v pol); [done|]. intros He.
    rewrite IH by done. rewrite <- app_assoc.
    by replace (S a + length its1) with (a + S (length its1)) by lia.
Qed.



(** *** C6 *)

Lemma sought_scanned_events eq x v name pb a :
  sought (scanned_events eq x v name pb a) =
    take (length (scan (scan_args eq) [] (mesh_points x v)).1 +
          match (scan (scan_args eq) [] (mesh_points x v)).2 with
          | Some _ => 1 | None => 0 end) (mesh_points x v).
Proof. unfold scanned_events; simpl. apply sought_scan_events. Qed.

Lemma calls_scanned_events eq x v name pb a :
  length (calls (scanned_events eq x v name pb a)) = 1.
Proof.
  unfold scanned_events, calls; simpl. by rewrite filter_scan_events.
Qed.

(** Once the scan of one configuration raises, what follows it in the
    dictionary plays no part. *)
Lemma sweep_stops ham s v pb a pre key pol post e :
  sweep_exn ham s v pre = None → body_exn ham s v pol = Some e →
  swept ham s v (pre ++ (key, pol) :: post) = swept ham s v pre ++ [swept_trap ham s v pol] ∧
  sweep_events ham s v pb a (pre ++ (key, pol) :: post) =
    sweep_events ham s v pb a pre ++ body_events ham s v pb (a + length pre) key pol ∧
  sweep_exn ham s v (pre ++ (key, pol) :: post) = Some e.
Proof.
  intros Hpre He.
  rewrite swept_app, sweep_events_app, sweep_exn_app, Hpre by done.
  simpl. rewrite He. by rewrite app_nil_r.
Qed.

Lemma take_middle {A} (l1 l2 : list A) x :
  take (length l1 + 1) (l1 ++ x :: l2) = l1 ++ [x].
Proof.
  rewrite (cons_middle x l1 l2), app_assoc.
  apply take_app_length'. rewrite length_app. simpl. lia.
Qed.

(** C6. When the solver raises at a grid point of some configuration,
    after answering at every point before it, the sweep ends with that
    very exception: the world it leaves is the one left by the loop cut
    after the failing configuration, so that nothing is constructed,
    called or sought for the configurations that follow, and nothing is
    sought beyond the failing point.  The scan of [part_000] likewise
    ends with the solver's exception at the failing point. *)
Theorem solver_exception_propagates :
  (∀ pols v pb w pre key pol post pts_ok r vel pts_rest e,
     let ham := TwoThree.return_hamiltonian 2 TwoThree.det in
     well_formed v →
     Python.items pols = pre ++ (key, pol) :: post →
     (∀ kp, kp ∈ pre →
        Forall (λ p, ∃ f, find_equilibrium_force (sweep_args ham TwoThree.s kp.2)
                            TwoThree.solver_kwargs p.1 p.2 = Ok f)
               ((λ vi, ((0, 0, 0), (0, 0, vi))%float) <$> data v)) →
     (λ vi, ((0, 0, 0), (0, 0, vi))%float) <$> data v = pts_ok ++ (r, vel) :: pts_rest →
     Forall (λ p, ∃ f, find_equilibrium_force (sweep_args ham TwoThree.s pol)
                         TwoThree.solver_kwargs p.1 p.2 = Ok f) pts_ok →
     find_equilibrium_force (sweep_args ham TwoThree.s pol) TwoThree.solver_kwargs r vel
       = Raised e →
     ∃ w' new,
       TwoThree.sweep pols v pb w = (w', Raised e) ∧
       TwoThree.sweep_loop pols ham TwoThree.s v pb (pre.*1 ++ [key]) ∅ w = (w', Raised e) ∧
       trace w' = trace w ++ new ∧
       length (constructions new) = length pre + 1 ∧
       length (calls new) = length pre + 1 ∧
       sought new =
         concat (replicate (length pre) ((λ vi, ((0, 0, 0), (0, 0, vi))%float) <$> data v))
         ++ pts_ok ++ [(r, vel)])
  ∧
  (∀ eq x v name pb w pts_ok r vel pts_rest e,
     concat ((λ vi, (λ xj, ((0, 0, xj), (0, 0, vi))%float) <$> data x) <$> data v)
       = pts_ok ++ (r, vel) :: pts_rest →
     Forall (λ p, ∃ f, find_equilibrium_force (scan_args eq) [] p.1 p.2 = Ok f) pts_ok →
     find_equilibrium_force (scan_args eq) [] r vel = Raised e →
     ∃ w' new,
       Part000.force_scan eq x v name pb w = (w', Raised e) ∧
       trace w' = trace w ++ new ∧
       length (calls new) = 1 ∧
       sought new = pts_ok ++ [(r, vel)]).
Proof.
  split.
  - intros pols v pb w pre key pol post pts_ok r vel pts_rest e ham
      Hv Hitems Hpre Hpts Hok Hraise.
    rewrite <- sweep_points_along in Hpre, Hpts |- * by done.
    assert (Hpre' : Forall (λ kp, body_exn ham TwoThree.s v kp.2 = None) pre).
    { apply Forall_forall. intros kp Hkp. by apply scan_all_ok, Hpre. }
    assert (Hexn : sweep_exn ham TwoThree.s v pre = None).
    { clear -Hpre'. induction Hpre' as [|[k p] pre Hk _ IH]; simpl in *; [done|].
      by rewrite Hk. }
    destruct (scan_raises (sweep_args ham TwoThree.s pol) TwoThree.solver_kwargs
                pts_ok r vel pts_rest e Hok Hraise) as [He Hlen].
    rewrite <- Hpts in He, Hlen.
    destruct (sweep_stops ham TwoThree.s v pb (length (heap w)) pre key pol post e Hexn He)
      as (Hsw & Hev & Hex).
    destruct (sweep_stops ham TwoThree.s v pb (length (heap w)) pre key pol [] e Hexn He)
      as (Hsw0 & Hev0 & Hex0).
    assert (Hget : Forall (λ kp, Python.get pols kp.1 = Some kp.2) (pre ++ [(key, pol)])).
    { pose proof (get_items pols) as Hg.
      rewrite Hitems, (cons_middle _ pre post), app_assoc in Hg.
      by apply Forall_app in Hg as [Hg _]. }
    pose proof (sweep_loop_run pols ham TwoThree.s v pb (pre ++ [(key, pol)]) ∅ w Hget Hv)
      as Hloop.
    rewrite Hsw0, Hev0, Hex0, fmap_app in Hloop. simpl in Hloop.
    eexists _, _. split; [|split; [exact Hloop|]].
    { rewrite sweep_run by done. fold ham. rewrite Hitems, Hsw, Hev, Hex. done. }
    cbn [trace]. split; [done|].
    destruct (sweep_events_ok ham TwoThree.s v pb pre Hpre' (length (heap w)))
      as (Hc & _ & Hn & Hs).
    unfold constructions, calls in *.
    rewrite !filter_app, sought_app, Hc, Hn, Hs.
    fold (calls (body_events ham TwoThree.s v pb (length (heap w) + length pre) key pol)).
    fold (constructions (body_events ham TwoThree.s v pb (length (heap w) + length pre) key pol)).
    rewrite calls_body_events, constructions_body_events, sought_body_events.
    unfold body_exn. rewrite He, Hlen, Hpts, take_middle.
    rewrite !length_app, !length_imap. done.
  - intros eq x v name pb w pts_ok r vel pts_rest e Hpts Hok Hraise.
    rewrite <- mesh_points_cross in Hpts.
    destruct (scan_raises (scan_args eq) [] pts_ok r vel pts_rest e Hok Hraise) as [He Hlen].
    rewrite <- Hpts in He, Hlen.
    eexists _, _. rewrite force_scan_run, He. cbn [raised_or trace].
    split; [done|]. split; [done|].
    split; [apply calls_scanned_events|].
    by rewrite sought_scanned_events, He, Hlen, Hpts, take_middle.
Qed.

(** *** C7 *)

(** The profiles reached through the mapping of a sweep do not depend on
    the heap the sweep started from. *)
Lemma results_bound (hp : list trap) tr (f : string * (vec3 * vec3) → trap) its :
  NoDup (its.*1) →
  results {| heap := hp ++ (f <$> its); trace := tr |} (bound (length hp) (its.*1) ∅) =
    list_to_map ((λ kp, (kp.1, Some (profile (f kp)))) <$> its).
Proof.
  intros Hnd. apply map_eq. intros k. unfold results. rewrite lookup_fmap.
  destruct (decide (k ∈ its.*1)) as [Hin|Hnin].
  - apply list_elem_of_lookup in Hin as [i Hi].
    rewrite (bound_lookup _ _ _ i) by done. simpl.
    rewrite list_lookup_fmap in Hi.
    destruct (its !! i) as [[k' pol]|] eqn:Hit; simplify_eq/=.
    rewrite lookup_app_r, Nat.add_comm, Nat.add_sub by lia.
    rewrite list_lookup_fmap, Hit. simpl. symmetry.
    apply elem_of_list_to_map_1.
    + rewrite <- list_fmap_compose. done.
    + apply list_elem_of_fmap. exists (k, pol). split; [done|].
      by eapply list_elem_of_lookup_2.
  - rewrite bound_lookup_notin, lookup_empty by done. simpl. symmetry.
    apply not_elem_of_list_to_map_1. by rewrite <- list_fmap_compose.
Qed.

(** C7. Run from any two states of the interpreter, in particular once
    and then again, the sweep ends the same way: with the same exception,
    or with result mappings through which the same profiles (grids and
    force arrays, element for element) are reached under the same labels.
    The same holds of the scan of [part_000] and the array it returns. *)
Theorem rerun_gives_identical_arrays :
  (∀ pols v pb w1 w2,
     well_formed v →
     match TwoThree.sweep pols v pb w1, TwoThree.sweep pols v pb w2 with
     | (w1', Ok obe1), (w2', Ok obe2) => results w1' obe1 = results w2' obe2
     | (_, Raised e1), (_, Raised e2) => e1 = e2
     | _, _ => False
     end)
  ∧
  (∀ eq x v name pb w1 w2,
     match Part000.force_scan eq x v name pb w1, Part000.force_scan eq x v name pb w2 with
     | (w1', Ok (a1, Fz1)), (w2', Ok (a2, Fz2)) =>
         Fz1 = Fz2 ∧ is_Some (heap w1' !! a1) ∧
         profile <$> heap w1' !! a1 = profile <$> heap w2' !! a2
     | (_, Raised e1), (_, Raised e2) => e1 = e2
     | _, _ => False
     end).
Proof.
  split.
  - intros pols v pb w1 w2 Hv. rewrite !sweep_run by done.
    destruct (sweep_exn _ _ v (Python.items pols)) eqn:Hexn; simpl; [done|].
    destruct (swept_ok _ _ _ _ Hexn) as [-> _].
    unfold Python.keys. by rewrite !results_bound by apply Python.items_NoDup.
  - intros eq x v name pb w1 w2. rewrite !force_scan_run.
    destruct (scan _ _ _).2; simpl; [done|].
    rewrite !list_lookup_middle by done. eauto.
Qed.

(** *** C8 *)

Lemma sim_bind {A B} (m1 m0 : M A) (k1 k0 : A → M B) :
  sim m1 m0 → (∀ a, sim (k1 a) (k0 a)) → sim (bind m1 k1) (bind m0 k0).
Proof.
  intros Hm Hk w1 w0 Hh Ht. unfold bind.
  destruct (Hm w1 w0 Hh Ht) as (Hh' & Ht' & Ho).
  destruct (m1 w1) as [w1' o1], (m0 w0) as [w0' o0]; simpl in *. subst o0.
  destruct o1; [by apply Hk | done].
Qed.

Lemma sim_lift {A} (o : outcome A) : sim (lift o) (lift o).
Proof. by intros w1 w0 Hh Ht. Qed.

Lemma sim_ret {A} (a : A) : sim (ret a) (ret a).
Proof. by intros w1 w0 Hh Ht. Qed.

Lemma sim_raise {A} e : sim (raise (A:=A) e) (raise e).
Proof. by intros w1 w0 Hh Ht. Qed.

Lemma sim_emit ev : sim (emit ev) (emit ev).
Proof.
  intros w1 w0 Hh Ht. split_and!; simpl; [done| |done].
  unfold silent in *. by rewrite !filter_app, Ht.
Qed.

(** Redrawing the progress bar is as good as doing nothing. *)
Lemma sim_progress d t : sim (emit (EvProgress d t)) (ret tt).
Proof.
  intros w1 w0 Hh Ht. split_and!; simpl; [done| |done].
  unfold silent in *. rewrite filter_app, Ht. simpl.
  rewrite filter_cons_False by (simpl; tauto). apply app_nil_r.
Qed.

Lemma sim_alloc t : sim (alloc t) (alloc t).
Proof. intros w1 w0 Hh Ht. unfold alloc, quiet_equiv; simpl. by rewrite Hh. Qed.

Lemma sim_load a : sim (load a) (load a).
Proof.
  intros w1 w0 Hh Ht. unfold load, quiet_equiv. rewrite Hh.
  by destruct (heap w0 !! a).
Qed.

Lemma sim_store a t : sim (store a t) (store a t).
Proof. intros w1 w0 Hh Ht. unfold store, quiet_equiv; simpl. by rewrite Hh. Qed.

Lemma sim_getitem {A} (d : gmap string A) key : sim (getitem d key) (getitem d key).
Proof. unfold getitem. destruct (d !! key); [apply sim_ret | apply sim_raise]. Qed.

Lemma sim_foreach {A} (l : list A) (b1 b0 : A → M unit) :
  (∀ x, sim (b1 x) (b0 x)) → sim (foreach l b1) (foreach l b0).
Proof.
  intros Hb. induction l as [|x l IH]; simpl; [apply sim_ret|].
  apply sim_bind; [apply Hb | by intros _].
Qed.

Create HintDb sim.
#[local] Hint Resolve sim_lift sim_ret sim_raise sim_emit sim_progress sim_alloc
  sim_load sim_store sim_getitem : sim.

Ltac sim_steps :=
  repeat first
    [ solve [auto with sim]
    | apply sim_bind; [|intros ?] ].

Lemma sim_new_trap ar : sim (new_trap ar) (new_trap ar).
Proof. unfold new_trap. sim_steps. Qed.

Lemma sim_np_array a : sim (np_array a) (np_array a).
Proof. unfold np_array. destruct (array3 _ _ _); auto with sim. Qed.

#[local] Hint Resolve sim_new_trap sim_np_array : sim.

Lemma sim_generate_force_profile self R V name kw :
  sim (generate_force_profile self R V name kw true)
      (generate_force_profile self R V name kw false).
Proof.
  unfold generate_force_profile. sim_steps.
  - case_decide; auto with sim.
  - apply sim_foreach. intros [i [r v]]. unfold force_at, store_data. sim_steps.
Qed.

#[local] Hint Resolve sim_generate_force_profile : sim.

Lemma sim_force_scan eq x v name :
  sim (Part000.force_scan eq x v name true) (Part000.force_scan eq x v name false).
Proof.
  unfold Part000.force_scan. destruct (meshgrid x v) as [X V]. sim_steps.
  destruct (String.eqb eq "rateeq"); apply sim_new_trap.
Qed.

Lemma sim_sweep_loop pols ham s v keys :
  ∀ obe, sim (TwoThree.sweep_loop pols ham s v true keys obe)
             (TwoThree.sweep_loop pols ham s v false keys obe).
Proof.
  induction keys as [|key keys IH]; intros obe; simpl; [apply sim_ret|].
  apply sim_bind; [|auto].
  unfold TwoThree.sweep_body. sim_steps.
  destruct (Python.get pols key); auto with sim.
Qed.

(** C8. With the progress bar on or off, a call of
    [generate_force_profile], the scan of [part_000] and the sweep of
    [two_three_forces.ipynb] leave the same heap, hence the same force
    arrays, return the same value or raise the same exception, and have
    the same trace apart from the redrawing of the bar. *)
Theorem progress_bar_is_observational :
  (∀ self R V name kw w,
     quiet_equiv (generate_force_profile self R V name kw true w)
                 (generate_force_profile self R V name kw false w))
  ∧
  (∀ eq x v name w,
     quiet_equiv (Part000.force_scan eq x v name true w)
                 (Part000.force_scan eq x v name false w))
  ∧
  (∀ pols v w,
     quiet_equiv (TwoThree.sweep pols v true w) (TwoThree.sweep pols v false w)).
Proof.
  split_and!; intros.
  - by apply sim_generate_force_profile.
  - by apply sim_force_scan.
  - by apply sim_sweep_loop.
Qed.

(** *** C9 *)

Lemma scan_events_no_construction self name ar kw pb total i pts a ar' :
  EvNew a ar' ∉ scan_events self name ar kw pb total i pts.
Proof.
  intros Hin.
  assert (Hf : EvNew a ar' ∈ filter (λ ev, is_construction ev)
                 (scan_events self name ar kw pb total i pts))
    by (by apply list_elem_of_filter).
  rewrite filter_scan_events in Hf by done. by apply elem_of_nil in Hf.
Qed.

Lemma body_events_new ham s v pb a key pol b ar :
  EvNew b ar ∈ body_events ham s v pb a key pol → ar = sweep_args ham s pol.
Proof.
  unfold body_events. rewrite elem_of_app. intros [Hin|Hin].
  - repeat (apply elem_of_cons in Hin as [Hin|Hin]; [by simplify_eq|]).
    by apply elem_of_nil in Hin.
  - by apply scan_events_no_construction in Hin.
Qed.

Lemma sweep_events_new ham s v pb its :
  ∀ a b ar, EvNew b ar ∈ sweep_events ham s v pb a its → ∃ pol, ar = sweep_args ham s pol.
Proof.
  induction its as [|[k pol] its IH]; intros a b ar Hin; cbn [sweep_events] in Hin.
  - by apply elem_of_nil in Hin.
  - apply elem_of_app in Hin as [Hin|Hin].
    + exists pol. by eapply body_events_new.
    + destruct (body_exn ham s v pol); [by apply elem_of_nil in Hin|]. by eapply IH.
Qed.

Lemma swept_args ham s v its :
  Forall (λ t, ∃ pol, args t = sweep_args ham s pol) (swept ham s v its).
Proof.
  induction its as [|[k pol] its IH]; simpl; constructor.
  - by exists pol.
  - by destruct (body_exn ham s v pol).
Qed.

Lemma field_off_scan_args eq : field_off (scan_args eq).
Proof. done. Qed.

Lemma field_off_sweep_args ham s pol : field_off (sweep_args ham s pol).
Proof. done. Qed.

(** C9. Whatever the model, the axes, the polarisations and the outcome,
    every object the scan of [part_000] or the sweep of
    [two_three_forces.ipynb] constructs is built with the constant
    magnetic field [(0, 0, 0)], which vanishes at every position and
    time, and with [include_mag_forces=False]: this holds of every
    construction in the trace and of every object added to the heap. *)
Theorem magnetic_field_is_off :
  (∀ eq x v name pb w,
     let w' := (Part000.force_scan eq x v name pb w).1 in
     Forall (λ t, field_off (args t)) (drop (length (heap w)) (heap w')) ∧
     ∀ a ar, EvNew a ar ∈ drop (length (trace w)) (trace w') → field_off ar)
  ∧
  (∀ pols v pb w,
     well_formed v →
     let w' := (TwoThree.sweep pols v pb w).1 in
     Forall (λ t, field_off (args t)) (drop (length (heap w)) (heap w')) ∧
     ∀ a ar, EvNew a ar ∈ drop (length (trace w)) (trace w') → field_off ar).
Proof.
  split.
  - intros eq x v name pb w. cbn zeta. rewrite force_scan_run. cbn [fst heap trace].
    rewrite !drop_app_length. split.
    + repeat constructor.
    + intros a ar Hin. unfold scanned_events in Hin. simpl in Hin.
      apply elem_of_cons in Hin as [Hin|Hin]; [simplify_eq; apply field_off_scan_args|].
      apply elem_of_cons in Hin as [Hin|Hin]; [done|].
      by apply scan_events_no_construction in Hin.
  - intros pols v pb w Hv. cbn zeta. rewrite sweep_run by done. cbn [fst heap trace].
    rewrite !drop_app_length. split.
    + eapply Forall_impl; [apply swept_args|].
      intros t [pol ->]. apply field_off_sweep_args.
    + intros a ar Hin. apply sweep_events_new in Hin as [pol ->].
      apply field_off_sweep_args.
Qed.

End Facts.

(** *** C10 *)

Section velocity_axes.
Import Numpy Pylcp Denotation.

Lemma forallb_Forall {A} (p : A → bool) (l : list A) :
  forallb p l = true → Forall (λ x, p x = true) l.
Proof.
  induction l as [|x l IH]; simpl; [constructor|].
  intros [Hx Hl]%andb_prop. constructor; auto.
Qed.

Lemma nonzero_neq f : nonzero f = true → f ≠ 0%float ∧ f ≠ (-0)%float.
Proof. intros Hf. split; intros ->; vm_compute in Hf; discriminate. Qed.

(** C10. No velocity at which either notebook seeks the force is zero.
    In [part_000] every value of the velocity mesh is at least 0.01, the
    first value of the axis; in [two_three_forces.ipynb] every value of
    the axis is at most -0.002 or at least 0.001.  Accordingly every
    point visited has a velocity [(0, 0, v_z)] with [v_z] nonzero. *)
Theorem velocities_nonzero :
  (head (data Part000.v) = Some 0.01%float ∧
   Forall (λ f, nonzero f = true ∧ (0.01 <=? f)%float = true)
          (data (meshgrid Part000.x Part000.v).2) ∧
   Forall (λ p, p.2.1 = (0, 0)%float ∧ nonzero p.2.2 = true)
          (mesh_points Part000.x Part000.v))
  ∧
  (Forall (λ f, nonzero f = true ∧
                ((f <=? -0.002)%float = true ∨ (0.001 <=? f)%float = true))
          (data TwoThree.v) ∧
   Forall (λ p, p.2.1 = (0, 0)%float ∧ nonzero p.2.2 = true)
          (sweep_points TwoThree.v)).
Proof.
  split_and!.
  - vm_compute. reflexivity.
  - eapply Forall_impl;
      [apply (forallb_Forall (λ f, nonzero f && (0.01 <=? f)%float));
       vm_compute; reflexivity|].
    intros f Hf. by apply andb_prop in Hf.
  - rewrite mesh_points_cross. apply Forall_forall. intros p Hp.
    apply list_elem_of_In, in_concat in Hp as (blk & Hblk & Hp).
    apply list_elem_of_In, list_elem_of_fmap in Hblk as (vi & -> & Hvi).
    apply list_elem_of_In, list_elem_of_fmap in Hp as (xj & -> & _).
    split; [done|]. simpl.
    revert vi Hvi. apply Forall_forall.
    apply (forallb_Forall nonzero). vm_compute. reflexivity.
  - eapply Forall_impl;
      [apply (forallb_Forall (λ f, nonzero f && ((f <=? -0.002) || (0.001 <=? f))%float));
       vm_compute; reflexivity|].
    intros f Hf. apply andb_prop in Hf as [Hn Hr]. split; [done|].
    by apply orb_prop in Hr.
  - rewrite sweep_points_along by (vm_compute; reflexivity).
    apply Forall_fmap, Forall_forall. intros vi Hvi. split; [done|]. simpl.
    revert vi Hvi. apply Forall_forall.
    apply (forallb_Forall nonzero). vm_compute. reflexivity.
Qed.

End velocity_axes.

(** * Further properties of the two cells *)

Section Contents.
Import Numpy Pylcp Denotation.
Context `{library : Backend} `{!Part000.Setup} `{!TwoThree.Setup}.
#[local] Open Scope monad_scope.

(** A scan that does not raise found a force at each of its points. *)
Lemma scan_ok_lookup ar kw pts :
  (scan ar kw pts).2 = None →
  ∀ i r v, pts !! i = Some (r, v) →
    ∃ f, find_equilibrium_force ar kw r v = Ok f ∧ (scan ar kw pts).1 !! i = Some f.
Proof.
  induction pts as [|[r0 v0] pts IH]; intros Hok i r v Hi; [done|].
  simpl in *. destruct (find_equilibrium_force ar kw r0 v0) as [f0|e] eqn:Hf; [|done].
  destruct (scan ar kw pts) as [fs e'] eqn:Hs. simpl in *.
  destruct i as [|i]; simplify_eq/=; eauto.
Qed.


Lemma columns_filled sh fs :
  length fs = size_of sh → columns (filled sh fs) = fs.
Proof.
  intros Hl. unfold filled.
  rewrite !pad_full by (by rewrite ?length_fmap).
  rewrite columns_stacked by (by rewrite ?length_fmap).
  by rewrite !zip_fst_snd.
Qed.

Lemma component_2_filled sh fs :
  length fs = size_of sh → component (filled sh fs) 2 = {| shape := sh; data := fs.*2 |}.
Proof.
  intros Hl. unfold filled, component. cbn [shape data tail].
  rewrite !pad_full by (by rewrite ?length_fmap). f_equal.
  rewrite drop_app_ge by (rewrite !length_fmap; lia).
  rewrite drop_app_ge by (rewrite !length_fmap; lia).
  rewrite !length_fmap, Hl.
  replace (2 * size_of sh - size_of sh - size_of sh) with 0 by lia.
  rewrite drop_0, take_ge by (rewrite length_fmap; lia). done.
Qed.

(** Position [i * n + j] of a concatenation of blocks of length [n]. *)
Lemma lookup_concat_blocks {A B} (f : B → list A) n (l : list B) :
  (∀ b, length (f b) = n) →
  ∀ i j b, l !! i = Some b → j < n → concat (f <$> l) !! (i * n + j) = f b !! j.
Proof.
  intros Hn. induction l as [|b0 l IH]; intros i j b Hi Hj; [done|].
  csimpl. destruct i as [|i]; simplify_eq/=.
  - rewrite lookup_app_l by (rewrite Hn; lia). done.
  - rewrite lookup_app_r by (rewrite Hn; lia). rewrite Hn.
    replace (n + i * n + j - n) with (i * n + j) by lia. by apply IH.
Qed.

(** The mesh point of row [i] and column [j]. *)
Lemma mesh_points_lookup x v i j xj vi :
  data x !! j = Some xj → data v !! i = Some vi →
  mesh_points x v !! (i * length (data x) + j) = Some ((0, 0, xj), (0, 0, vi))%float.
Proof.
  intros Hx Hv. rewrite mesh_points_cross.
  rewrite (lookup_concat_blocks _ (length (data x)) _ (λ _, length_fmap _ _) i j vi Hv)
    by (by eapply lookup_lt_Some).
  by rewrite list_lookup_fmap, Hx.
Qed.

(** X1: when the scanning cell of [part_000] returns, the entry of row
    [i] and column [j] of the array it returns is the z-component of the
    force the solver found for an atom at position [(0, 0, x[j])] moving
    with velocity [(0, 0, v[i])]. *)
Theorem scan_returns_forces eq x v name pb w w' a Fz i j xj vi :
  Part000.force_scan eq x v name pb w = (w', Ok (a, Fz)) →
  data x !! j = Some xj → data v !! i = Some vi →
  ∃ f, find_equilibrium_force (scan_args eq) [] (0, 0, xj)%float (0, 0, vi)%float = Ok f ∧
       data Fz !! (i * length (data x) + j) = Some f.2.
Proof.
  rewrite force_scan_run. intros Hrun Hx Hv.
  destruct (scan (scan_args eq) [] (mesh_points x v)).2 as [e|] eqn:Hexn; [done|].
  injection Hrun as _ _ <-. cbn [F scanned_profile].
  destruct (scan_ok_lookup _ _ _ Hexn _ _ _ (mesh_points_lookup x v i j xj vi Hx Hv))
    as (f & Hf & Hi).
  exists f. split; [done|].
  rewrite component_2_filled.
  - cbn [data]. by rewrite list_lookup_fmap, Hi.
  - rewrite scan_ok_length, length_mesh_points, size_of_mesh by done. done.
Qed.

Lemma sweep_points_lookup v i vi :
  well_formed v → data v !! i = Some vi →
  sweep_points v !! i = Some ((0, 0, 0), (0, 0, vi))%float.
Proof. intros Hwf Hi. by rewrite sweep_points_along, list_lookup_fmap, Hi. Qed.

(** X2: when the sweep of [two_three_forces.ipynb] returns, the object
    bound to each label was constructed for that label's polarisations,
    and its profile [molasses] holds, at every index [i] of the velocity
    axis, the point (origin, [(0, 0, v[i])]) and the force the solver
    found there; [F[2]], which the notebook plots, holds its
    z-component. *)
Theorem sweep_stores_forces pols v pb w w' obe key pol i vi :
  well_formed v →
  TwoThree.sweep pols v pb w = (w', Ok obe) →
  (key, pol) ∈ Python.items pols →
  data v !! i = Some vi →
  ∃ a t fp f,
    obe !! key = Some a ∧ heap w' !! a = Some t ∧
    args t = sweep_args (TwoThree.return_hamiltonian 2 TwoThree.det) TwoThree.s pol ∧
    profile t !! "molasses" = Some fp ∧
    nditer (R fp) (V fp) !! i = Some ((0, 0, 0), (0, 0, vi))%float ∧
    find_equilibrium_force (args t) TwoThree.solver_kwargs (0, 0, 0)%float (0, 0, vi)%float
      = Ok f ∧
    columns (F fp) !! i = Some f ∧
    data (component (F fp) 2) !! i = Some f.2.
Proof.
  intros Hwf Hrun [k Hk]%list_elem_of_lookup_1 Hi.
  destruct (sweep_ok_entry _ _ _ _ _ _ _ _ _ Hwf Hrun Hk) as (Ho & Ht & Hexn).
  destruct (scan_ok_lookup _ _ _ Hexn _ _ _ (sweep_points_lookup v i vi Hwf Hi))
    as (f & Hf & Hfi).
  assert (Hlen : length (scan (sweep_args (TwoThree.return_hamiltonian 2 TwoThree.det)
                                 TwoThree.s pol) TwoThree.solver_kwargs (sweep_points v)).1
                 = size_of (shape v)).
  { rewrite scan_ok_length by exact Hexn. by apply length_sweep_points. }
  eexists _, _, _, f. split; [exact Ho|]. split; [exact Ht|]. split; [done|].
  split; [by simplify_map_eq|]. cbn [R V F swept_profile].
  split.
  { rewrite nditer_stacked_z by (done || apply zeros_well_formed).
    by apply sweep_points_lookup. }
  split; [exact Hf|].
  rewrite columns_filled, component_2_filled by done.
  split; [done|]. cbn [data]. by rewrite list_lookup_fmap, Hfi.
Qed.



Lemma length_swept_le ham s v its : length (swept ham s v its) ≤ length its.
Proof.
  induction its as [|[k pol] its IH]; simpl; [done|].
  destruct (body_exn ham s v pol); simpl; lia.
Qed.

Lemma constructions_sweep_events ham s v pb its :
  ∀ a, length (constructions (sweep_events ham s v pb a its)) = length (swept ham s v its).
Proof.
  induction its as [|[k pol] its IH]; intros a; [done|].
  cbn [sweep_events swept]. unfold constructions in *.
  rewrite filter_app. fold (constructions (body_events ham s v pb a k pol)).
  rewrite constructions_body_events, length_app.
  destruct (body_exn ham s v pol); cbn [length]; [done|]. by rewrite IH.
Qed.

(** X4: a run only adds to the interpreter's state.  Whether it returns
    or raises, the sweep leaves every object that existed before as it
    was and every earlier event in place; it constructs one object per
    configuration it reaches, at most one per label and exactly one per
    label when it returns, and each of them holds one profile,
    [molasses]. *)
Theorem sweep_only_appends pols v pb w :
  well_formed v →
  ∃ objs new,
    heap (TwoThree.sweep pols v pb w).1 = heap w ++ objs ∧
    trace (TwoThree.sweep pols v pb w).1 = trace w ++ new ∧
    length objs ≤ Python.len pols ∧
    length (constructions new) = length objs ∧
    Forall (λ t, dom (profile t) = {["molasses"]}) objs ∧
    ∀ obe, (TwoThree.sweep pols v pb w).2 = Ok obe → length objs = Python.len pols.
Proof.
  intros Hwf. rewrite sweep_run by done. cbn [fst snd heap trace].
  eexists _, _. split; [done|]. split; [done|].
  split; [apply length_swept_le|].
  split; [apply constructions_sweep_events|].
  split.
  - generalize (Python.items pols). intros its.
    induction its as [|[k pol] its IH]; [constructor|].
    cbn [swept]. constructor.
    + cbn [profile swept_trap]. rewrite dom_insert_L, dom_empty_L. set_solver.
    + destruct (body_exn _ _ v pol); [constructor | exact IH].
  - intros obe Hok.
    destruct (sweep_exn _ _ v (Python.items pols)) as [e|] eqn:Hexn; [done|].
    destruct (swept_ok _ _ _ _ Hexn) as [-> _]. by rewrite length_fmap.
Qed.

(** X5: the model of [part_000] is selected by comparing [eq] with the
    string [rateeq]: the object constructed is a rate-equation object
    for exactly that string and an optical-Bloch-equation object for
    every other one, a misspelt name included.  It is built from the
    notebook's beams and Hamiltonian whatever the outcome of the scan. *)
Theorem model_selected_by_name eq x v name pb w :
  ∃ t, heap (Part000.force_scan eq x v name pb w).1 !! length (heap w) = Some t ∧
    (equation (args t) = rateeq ↔ eq = "rateeq") ∧
    (equation (args t) = obe ↔ eq ≠ "rateeq") ∧
    beams (args t) = Part000.laserBeams_D2 ∧ ham (args t) = Part000.hamiltonian_D2 ∧
    transform_into_re_im (args t) = None.
Proof.
  rewrite force_scan_run. cbn [fst heap].
  eexists. split; [by rewrite lookup_app_r, Nat.sub_diag by lia|].
  cbn [args scanned_trap scan_args equation beams ham transform_into_re_im].
  destruct (String.eqb_spec eq "rateeq") as [->|Hne]; split_and!; try done.
Qed.

(** X6: the configurations do not influence each other.  Two sweeps over
    the same velocities, from any two states and over any two
    dictionaries, that both return, hold the same profiles under every
    label that has the same polarisations in both dictionaries, whatever
    the other entries and their order. *)
Theorem configurations_are_independent pols1 pols2 v pb1 pb2 w1 w2 w1' w2' obe1 obe2 key pol :
  well_formed v →
  TwoThree.sweep pols1 v pb1 w1 = (w1', Ok obe1) →
  TwoThree.sweep pols2 v pb2 w2 = (w2', Ok obe2) →
  (key, pol) ∈ Python.items pols1 → (key, pol) ∈ Python.items pols2 →
  ∃ profiles, results w1' obe1 !! key = Some (Some profiles) ∧
              results w2' obe2 !! key = Some (Some profiles).
Proof.
  intros Hwf Hrun1 Hrun2 [k1 Hk1]%list_elem_of_lookup_1 [k2 Hk2]%list_elem_of_lookup_1.
  destruct (sweep_ok_entry _ _ _ _ _ _ _ _ _ Hwf Hrun1 Hk1) as (Ho1 & Ht1 & _).
  destruct (sweep_ok_entry _ _ _ _ _ _ _ _ _ Hwf Hrun2 Hk2) as (Ho2 & Ht2 & _).
  eexists. unfold results. rewrite !lookup_fmap, Ho1, Ho2. cbn [fmap option_fmap option_map].
  rewrite Ht1, Ht2. done.
Qed.

Lemma swept_from_items ham s v its :
  Forall (λ t, ∃ kp, kp ∈ its ∧ args t = sweep_args ham s kp.2) (swept ham s v its).
Proof.
  induction its as [|[k pol] its IH]; [constructor|].
  cbn [swept]. constructor.
  - exists (k, pol). split; [by left | done].
  - destruct (body_exn ham s v pol); [constructor|].
    eapply Forall_impl; [exact IH|]. intros t (kp & Hin & Hargs). exists kp.
    split; [by right | done].
Qed.

(** X11: what [return_lasers] hands to every object of the sweep.
    Each object the sweep constructs, whether the run returns or raises,
    belongs to an entry of the dictionary and is an optical-Bloch object
    in real and imaginary parts with two beams that run against each
    other along z.  Both beams have detuning 0 and saturation 1: the
    detuning -2 enters through the Hamiltonian alone.  Both are read in
    the same coordinates, spherical exactly when the second or third
    component of the first polarisation is positive, and cartesian
    otherwise, whatever the second polarisation is. *)
Theorem beams_of_the_sweep pols v pb w :
  well_formed v →
  Forall (λ t, ∃ key p1 p2 pc,
            (key, (p1, p2)) ∈ Python.items pols ∧
            beams (args t) =
              pylcp_laserBeams
                [ {| kvec := (0, 0, 1)%float; Pylcp.pol := p1; pol_coord := pc;
                     delta := 0%float; Pylcp.s := 1%float |};
                  {| kvec := (0, 0, -1)%float; Pylcp.pol := p2; pol_coord := pc;
                     delta := 0%float; Pylcp.s := 1%float |} ]
                infinitePlaneWaveBeam ∧
            (pc = "spherical" ↔ (0 <? p1.2)%float = true ∨ (0 <? p1.1.2)%float = true) ∧
            (pc = "cartesian" ↔ (0 <? p1.2)%float = false ∧ (0 <? p1.1.2)%float = false) ∧
            ham (args t) = TwoThree.return_hamiltonian 2 (-2.0)%float ∧
            equation (args t) = obe ∧ transform_into_re_im (args t) = Some true)
         (drop (length (heap w)) (heap (TwoThree.sweep pols v pb w).1)).
Proof.
  intros Hwf. rewrite sweep_run by done. cbn [fst heap]. rewrite drop_app_length.
  eapply Forall_impl; [apply swept_from_items|].
  intros t ([key [p1 p2]] & Hin & ->). cbn [snd].
  exists key, p1, p2,
    (if ((0 <? p1.2) || (0 <? p1.1.2))%float then "spherical" else "cartesian").
  split; [done|]. split; [done|].
  cbn [ham equation transform_into_re_im sweep_args].
  destruct (0 <? p1.2)%float, (0 <? p1.1.2)%float; cbn [orb];
    split_and!; try done; try (split; [by auto | done]);
    try (split; [done | by intros [?|?]]); try (split; [done | by intros [??]]).
Qed.

End Contents.

Section Figures.
Import Numpy Pylcp Pyplot Denotation Drawn.
Context `{library : Backend} `{!Part000.Setup} `{!TwoThree.Setup}.
#[local] Open Scope monad_scope.

(** The recorded output of the cell: [H_0 in Tesla 0.0004283593642017968]
    and [H_0 in Gauss 4.283593642017968]. *)
Lemma h0_printed :
  TwoThreeCells.h0 = 0.0004283593642017968%float ∧
  (TwoThreeCells.h0 * 1.0e4)%float = 4.283593642017968%float.
Proof. split; reflexivity. Qed.




(** *** What [plot] draws *)


Lemma plot_2d ax x y n c fmt lab ls lw :
  shape x = [n; c] → shape y = [n; c] →
  plot ax x y fmt lab ls lw =
    Ok ((λ j, mk_line ax (column x j) (column y j) fmt lab ls lw) <$> seq 0 c).
Proof.
  intros Hx Hy. unfold plot, first_dim, ncols. rewrite Hx, Hy.
  rewrite Nat.eqb_refl. cbn [negb length orb]. rewrite Nat.eqb_refl.
  replace (2 <? 2) with false by done. cbn [orb negb]. rewrite andb_false_r.
  destruct c as [|c]; [done|]. cbn [Nat.eqb orb]. rewrite Nat.max_id.
  f_equal. apply list_eq. intros j. rewrite !list_lookup_fmap.
  destruct (seq 0 (S c) !! j) as [j'|] eqn:Hj; [|done].
  apply lookup_seq in Hj as [-> Hj]. cbn [fmap option_fmap option_map].
  by rewrite Nat.mod_small by lia.
Qed.


(** Every column of the velocity mesh is the velocity axis. *)
Lemma column_mesh_V x v j :
  j < length (data x) → column (meshgrid x v).2 j = data v.
Proof.
  intros Hj. unfold column. cbn [meshgrid snd shape data].
  apply list_eq. intros i. rewrite list_lookup_fmap.
  destruct (data v !! i) as [vi|] eqn:Hi.
  - rewrite (proj2 (lookup_seq 0 _ i i)) by (split; [done | by eapply lookup_lt_Some]).
    cbn [fmap option_fmap option_map]. f_equal. apply nth_lookup_Some.
    rewrite (lookup_concat_blocks _ (length (data x)) _ (λ _, length_replicate _ _) i j vi Hi)
      by done.
    by apply lookup_replicate_2.
  - apply lookup_ge_None in Hi.
    rewrite (proj2 (lookup_ge_None (seq 0 (length (data v))) i)) by (by rewrite length_seq).
    done.
Qed.

(** What the scanning cell returns when it returns. *)
Lemma force_scan_ok eq x v name pb w w' a Fz :
  Part000.force_scan eq x v name pb w = (w', Ok (a, Fz)) →
  (scan (scan_args eq) [] (mesh_points x v)).2 = None ∧
  Fz = {| shape := [length (data v); length (data x)];
          data := (scan (scan_args eq) [] (mesh_points x v)).1.*2 |}.
Proof.
  rewrite force_scan_run. intros Hrun.
  destruct (scan (scan_args eq) [] (mesh_points x v)).2 as [e|] eqn:Hexn; [done|].
  injection Hrun as _ _ <-. split; [done|]. cbn [F scanned_profile].
  apply component_2_filled.
  rewrite scan_ok_length, length_mesh_points, size_of_mesh by done. done.
Qed.

(** X7: the two cells of [part_000] fit together.  When the scan
    returns, the plotting cell that follows does not fail on its two
    arrays; it draws one line per position, and the line of position
    [x[j]] has the velocity axis as abscissae and, above [v[i]], the
    z-component of the force found at [(x[j], v[i])], drawn with the
    marker of the call. *)
Theorem scan_then_plot eq x v name pb w w' res :
  Part000.force_scan eq x v name pb w = (w', Ok res) →
  ∃ lines,
    Part000Cells.scan_and_plot eq x v name pb w = (w', Ok (Subplots "ax" :: (Line <$> lines))) ∧
    length lines = length (data x) ∧
    ∀ j xj, data x !! j = Some xj →
      ∃ l, lines !! j = Some l ∧ xdata l = data v ∧ fmt l = Some "." ∧
        Forall2 (λ vi fz, ∃ f, find_equilibrium_force (scan_args eq) []
                                 (0, 0, xj)%float (0, 0, vi)%float = Ok f ∧ fz = f.2)
                (data v) (ydata l).
Proof.
  destruct res as [a Fz]. intros Hrun.
  destruct (force_scan_ok _ _ _ _ _ _ _ _ _ Hrun) as [Hexn HFz].
  unfold Part000Cells.scan_and_plot, bind. rewrite Hrun. cbn [snd].
  unfold lift, Part000Cells.plot_cell.
  rewrite (plot_2d _ _ _ (length (data v)) (length (data x)))
    by (by rewrite ?HFz; try apply meshgrid_shape).
  eexists. split; [done|]. split; [by rewrite length_fmap, length_seq|].
  intros j xj Hj. pose proof (lookup_lt_Some _ _ _ Hj) as Hlt.
  eexists. split.
  { rewrite list_lookup_fmap, (proj2 (lookup_seq 0 _ j j)) by done. done. }
  cbn [xdata ydata fmt]. split; [by apply column_mesh_V|]. split; [done|].
  apply Forall2_same_length_lookup_2.
  { rewrite HFz. unfold column. cbn [shape]. by rewrite length_fmap, length_seq. }
  intros i vi fz Hi. rewrite HFz. unfold column. cbn [shape data].
  rewrite list_lookup_fmap, (proj2 (lookup_seq 0 _ i i))
    by (split; [done | by eapply lookup_lt_Some]).
  cbn [fmap option_fmap option_map]. intros [= <-].
  destruct (scan_ok_lookup _ _ _ Hexn _ _ _ (mesh_points_lookup x v i j xj vi Hj Hi))
    as (f & Hf & Hfi).
  exists f. split; [done|]. apply nth_lookup_Some. by rewrite list_lookup_fmap, Hfi.
Qed.

(** *** The plotting cell of [two_three_forces.ipynb] *)

(** A plotting call changes no object and adds one read of the result
    mapping to the trace, whether it returns or raises. *)
Lemma plot_curve_world ax v (obe : gmap string nat) key ls w :
  (TwoThreeCells.plot_curve ax v obe key ls w).1 =
    {| heap := heap w; trace := trace w ++ [EvGetItem key] |}.
Proof.
  unfold TwoThreeCells.plot_curve, bind, emit, getitem, load, lift, ret, raise.
  destruct (obe !! key) as [a|]; [|done]. cbn [heap].
  destruct (heap w !! a) as [t|]; [|done].
  destruct (profile t !! "molasses") as [fp|]; [|done].
  by destruct (plot _ _ _ _ _ _ _).
Qed.


Lemma plot_body_world v (obe : gmap string nat) fig key w :
  ∃ new, (TwoThreeCells.plot_body v obe fig key w).1 =
           {| heap := heap w; trace := trace w ++ new |} ∧
         Forall (λ ev, ev = EvGetItem key) new.
Proof.
  unfold TwoThreeCells.plot_body, bind.
  pose proof (plot_curve_world "ax" v obe key (TwoThreeCells.linestyle_of key) w) as H1'.
  destruct (TwoThreeCells.plot_curve "ax" v obe key _ w) as [w1 [l1|e1]]; cbn [fst] in H1'.
  - pose proof (plot_curve_world "axins" v obe key (TwoThreeCells.linestyle_of key) w1) as H2'.
    destruct (TwoThreeCells.plot_curve "axins" v obe key _ w1) as [w2 [l2|e2]];
      cbn [fst] in H2'; subst; cbn [fst heap trace ret];
      (exists [EvGetItem key; EvGetItem key]; split;
       [by rewrite <- app_assoc | by repeat constructor]).
  - subst. exists [EvGetItem key]. split; [done | by repeat constructor].
Qed.

Lemma plot_loop_world v (obe : gmap string nat) keys :
  ∀ fig w, ∃ new,
    (TwoThreeCells.plot_loop v obe keys fig w).1 = {| heap := heap w; trace := trace w ++ new |} ∧
    Forall (λ ev, ∃ key, key ∈ keys ∧ ev = EvGetItem key) new.
Proof.
  induction keys as [|key keys IH]; intros fig w.
  - exists []. split; [by rewrite app_nil_r, world_eta | constructor].
  - cbn [TwoThreeCells.plot_loop]. unfold bind.
    destruct (plot_body_world v obe fig key w) as (new1 & Hw1 & Hnew1).
    destruct (TwoThreeCells.plot_body v obe fig key w) as [w1 [fig1|e1]]; cbn [fst] in Hw1.
    + destruct (IH fig1 w1) as (new2 & Hw2 & Hnew2). subst w1. cbn [heap trace] in Hw2.
      exists (new1 ++ new2). split; [by rewrite Hw2, app_assoc|].
      apply Forall_app. split.
      * eapply Forall_impl; [exact Hnew1|]. intros ev ->. exists key. split; [by left | done].
      * eapply Forall_impl; [exact Hnew2|]. intros ev (k & Hk & ->). exists k.
        split; [by right | done].
    + subst w1. exists new1. split; [done|].
      eapply Forall_impl; [exact Hnew1|]. intros ev ->. exists key. split; [by left | done].
Qed.

Lemma bind_ret_world {A B} (m : M A) (f : A → B) w :
  (bind m (λ a, ret (f a)) w).1 = (m w).1.
Proof. unfold bind. by destruct (m w) as [w' [a|e]]. Qed.

(** X9: the plotting cell only reads.  In whatever state it is run and
    whether it returns or raises, it leaves every object as it was,
    constructs none and seeks no force: all it adds to the trace are
    reads of the result mapping under the labels it visits. *)
Theorem plot_cell_only_reads v (obe : gmap string nat) order w :
  ∃ new,
    heap (TwoThreeCells.plot_cell v obe order w).1 = heap w ∧
    trace (TwoThreeCells.plot_cell v obe order w).1 = trace w ++ new ∧
    Forall (λ ev, ∃ key, key ∈ order ∧ ev = EvGetItem key) new ∧
    constructions new = [] ∧ calls new = [] ∧ sought new = [].
Proof.
  unfold TwoThreeCells.plot_cell.
  destruct (plot_loop_world v obe order
              [Subplots "ax"; InsetAxes "axins" "ax" 1.0%float 0.8%float] w)
    as (new & Hw & Hnew).
  exists new.
  rewrite bind_ret_world, Hw. cbn [heap trace]. split; [done|]. split; [done|]. split; [done|].
  clear Hw. induction Hnew as [|ev new (key & _ & ->) _ IH]; [done|].
  unfold constructions, calls in *. rewrite !filter_cons. cbn. done.
Qed.









End Figures.

(** * Runs on the concrete library *)

Import Numpy Pylcp Denotation Demo.
#[local] Existing Instance Demo.backend.

(** The shapes of C1 on a mesh of 2 positions and 3 velocities, on a
    single point, and on a sweep over three polarisations. *)
Lemma force_array_shape_witness :
  (∃ w' a Fz,
     Part000.force_scan "obe" x2 v3 "Fz" true fresh = (w', Ok (a, Fz)) ∧
     ∃ t fp, heap w' !! a = Some t ∧ profile t !! "Fz" = Some fp ∧
       shape (F fp) = [3; 3; 2] ∧ length (data (F fp)) = 3 * (2 * 3) ∧
       length (columns (F fp)) = length (nditer (R fp) (V fp)) ∧
       Fz = component (F fp) 2 ∧ shape Fz = [3; 2])
  ∧
  (find_equilibrium_force (scan_args "obe") [] (0, 0, 0)%float (0, 0, 0.5)%float
     = Ok (0, 0, -0.5)%float ∧
   ∃ w' a Fz t fp,
     Part000.force_scan "obe" (array1 [0%float]) (array1 [0.5%float]) "Fz" true fresh
       = (w', Ok (a, Fz)) ∧
     heap w' !! a = Some t ∧ profile t !! "Fz" = Some fp ∧
     shape (F fp) = [3; 1; 1] ∧ data (F fp) = [0; 0; -0.5]%float)
  ∧
  (well_formed v2 ∧ "circ" ∈ Python.keys three_pols ∧
   ∃ w' obe,
     TwoThree.sweep three_pols v2 true fresh = (w', Ok obe) ∧
     ∃ a t fp, obe !! "circ" = Some a ∧ heap w' !! a = Some t ∧
       profile t !! "molasses" = Some fp ∧ shape (F fp) = [3; 2] ∧
       length (data (F fp)) = 3 * 2).
Proof.
  destruct (force_array_shape (library := Demo.backend)) as (Hscan & Hpoint & Hsweep).
  split_and!.
  - eexists _, _, _. split; [vm_compute; reflexivity|].
    apply (Hscan "obe" x2 v3 "Fz" true fresh). vm_compute. reflexivity.
  - reflexivity.
  - apply (Hpoint "obe" 0%float 0.5%float "Fz" true fresh (0, 0, -0.5)%float). reflexivity.
  - reflexivity.
  - apply list_elem_of_In. simpl. tauto.
  - eexists _, _. split; [vm_compute; reflexivity|].
    apply (Hsweep three_pols v2 true fresh); [reflexivity | vm_compute; reflexivity | ].
    apply list_elem_of_In. simpl. tauto.
Defined.



(** The scenario of C2 on both notebooks. *)
Lemma default_scenario_shape_witness :
  (∃ w' a Fz,
     Part000.force_scan "obe" (array1 [0.0%float]) (array1 [0.01; 0.5; 2.5]%float) "default"
       true fresh = (w', Ok (a, Fz)) ∧
     ∃ t fp, heap w' !! a = Some t ∧ profile t = {["default" := fp]} ∧
             shape (F fp) = [3; 3; 1])
  ∧
  (∃ w' obe,
     TwoThree.sweep default_pols (array1 [0.01; 0.5; 2.5]%float) true fresh = (w', Ok obe) ∧
     ∃ a t fp, obe = {["default" := a]} ∧ heap w' !! a = Some t ∧
               profile t = {["molasses" := fp]} ∧ shape (F fp) = [3; 3]).
Proof.
  destruct (default_scenario_shape (library := Demo.backend)) as (Hscan & Hsweep).
  split.
  - eexists _, _, _. split; [vm_compute; reflexivity|].
    eapply (Hscan "obe" true fresh). vm_compute. reflexivity.
  - eexists _, _. split; [vm_compute; reflexivity|].
    eapply (Hsweep true fresh). vm_compute. reflexivity.
Defined.

(** C2 as stated fails: on the scenario's input the mesh scan of
    [part_000] stores an array of shape [(3, 3, 1)] and the sweep of
    [two_three_forces.ipynb] one of shape [(3, 3)]; neither is
    [(3, 1, 3)]. *)
Lemma default_scenario_shape_is_not_3_1_3 :
  (∃ w' a Fz t fp,
     Part000.force_scan Part000.eq (array1 [0.0%float]) (array1 [0.01; 0.5; 2.5]%float)
       "default" true fresh = (w', Ok (a, Fz)) ∧
     heap w' !! a = Some t ∧ profile t !! "default" = Some fp ∧
     shape (F fp) = [3; 3; 1] ∧ shape (F fp) ≠ [3; 1; 3])
  ∧
  (∃ w' obe a t fp,
     TwoThree.sweep default_pols (array1 [0.01; 0.5; 2.5]%float) true fresh = (w', Ok obe) ∧
     obe !! "default" = Some a ∧ heap w' !! a = Some t ∧
     profile t !! "molasses" = Some fp ∧
     shape (F fp) = [3; 3] ∧ shape (F fp) ≠ [3; 1; 3]).
Proof.
  split.
  - eexists _, _, _, _, _.
    split; [vm_compute; reflexivity|].
    split; [vm_compute; reflexivity|].
    split; [vm_compute; reflexivity|].
    split; [reflexivity | discriminate].
  - eexists _, _, _, _, _.
    split; [vm_compute; reflexivity|].
    split; [vm_compute; reflexivity|].
    split; [vm_compute; reflexivity|].
    split; [vm_compute; reflexivity|].
    split; [reflexivity | discriminate].
Qed.



(** C4 on three polarisations and two velocities. *)
Lemma one_call_per_configuration_witness :
  well_formed v2 ∧
  ∃ w' obe,
    TwoThree.sweep three_pols v2 true fresh = (w', Ok obe) ∧
    length (calls (trace w')) = 3 ∧
    sought (trace w') =
      concat (replicate 3 ((λ vi, ((0, 0, 0), (0, 0, vi))%float) <$> data v2)) ∧
    size obe = 3 ∧
    dom obe = list_to_set ["lin"; "circ"; "perp"] ∧
    obe !! "perp" = Some 2.
Proof.
  split; [reflexivity|].
  assert (Hrun : TwoThree.sweep three_pols v2 true fresh =
                   ((TwoThree.sweep three_pols v2 true fresh).1,
                    Ok (bound 0 ["lin"; "circ"; "perp"] ∅))).
  { vm_compute. reflexivity. }
  eexists _, _. split; [exact Hrun|].
  destruct (one_call_per_configuration (library := Demo.backend) three_pols v2 true fresh
              _ _ eq_refl Hrun)
    as (new & Htr & Hc & Hl & Hs & Hsize & Hdom & Hent).
  change (trace fresh ++ new) with new in Htr. rewrite Htr.
  destruct (Hent 2 "perp" ((1, 0, 0), (0, 1, 0))%float eq_refl) as (t & Ho & _).
  split_and!; [exact Hl | exact Hs | exact Hsize | exact Hdom | exact Ho].
Defined.


(** C7: the sweep run once, and run again where the first run ended. *)
Lemma rerun_gives_identical_arrays_witness :
  well_formed v2 ∧
  match TwoThree.sweep three_pols v2 true fresh,
        TwoThree.sweep three_pols v2 true (TwoThree.sweep three_pols v2 true fresh).1 with
  | (w1', Ok obe1), (w2', Ok obe2) => results w1' obe1 = results w2' obe2
  | (_, Raised e1), (_, Raised e2) => e1 = e2
  | _, _ => False
  end.
Proof.
  split; [reflexivity|].
  apply (proj1 (rerun_gives_identical_arrays (library := Demo.backend))). reflexivity.
Defined.

(** C9 on a sweep over three polarisations. *)
Lemma magnetic_field_is_off_witness :
  well_formed v2 ∧
  Forall (λ t, field_off (args t))
         (drop (length (heap fresh)) (heap (TwoThree.sweep three_pols v2 true fresh).1)) ∧
  ∀ a ar,
    EvNew a ar ∈ drop (length (trace fresh)) (trace (TwoThree.sweep three_pols v2 true fresh).1) →
    field_off ar.
Proof.
  split; [reflexivity|].
  apply (proj2 (magnetic_field_is_off (library := Demo.backend)) three_pols v2 true fresh).
  reflexivity.
Defined.

(** * Further runs on the concrete library *)

Import Pyplot Drawn.

(** X1 on a mesh of 2 positions and 3 velocities, for the last point. *)
Lemma scan_returns_forces_witness :
  ∃ w' a Fz,
    Part000.force_scan "obe" x2 v3 "Fz" true fresh = (w', Ok (a, Fz)) ∧
    data x2 !! 1 = Some 0.1%float ∧ data v3 !! 2 = Some 2.5%float ∧
    ∃ f, find_equilibrium_force (scan_args "obe") [] (0, 0, 0.1)%float (0, 0, 2.5)%float = Ok f ∧
         data Fz !! (2 * length (data x2) + 1) = Some f.2.
Proof.
  assert (Hrun : Part000.force_scan "obe" x2 v3 "Fz" true fresh =
                   ((Part000.force_scan "obe" x2 v3 "Fz" true fresh).1,
                    Ok (0, component (F (scanned_profile "obe" x2 v3)) 2))).
  { vm_compute. reflexivity. }
  eexists _, _, _. split; [exact Hrun|].
  split; [reflexivity|]. split; [reflexivity|].
  exact (scan_returns_forces (library := Demo.backend) "obe" x2 v3 "Fz" true fresh _ _ _
           2 1 0.1%float 2.5%float Hrun eq_refl eq_refl).
Defined.

(** X2 on three polarisations, for the second one and the second
    velocity. *)
Lemma sweep_stores_forces_witness :
  well_formed v2 ∧
  ∃ w' obe,
    TwoThree.sweep three_pols v2 true fresh = (w', Ok obe) ∧
    ("circ", ((0, 0, 1), (1, 0, 0))%float) ∈ Python.items three_pols ∧
    data v2 !! 1 = Some 0.5%float ∧
    ∃ a t fp f,
      obe !! "circ" = Some a ∧ heap w' !! a = Some t ∧
      args t = sweep_args (TwoThree.return_hamiltonian 2 TwoThree.det) TwoThree.s
                 ((0, 0, 1), (1, 0, 0))%float ∧
      profile t !! "molasses" = Some fp ∧
      nditer (R fp) (V fp) !! 1 = Some ((0, 0, 0), (0, 0, 0.5))%float ∧
      find_equilibrium_force (args t) TwoThree.solver_kwargs (0, 0, 0)%float (0, 0, 0.5)%float
        = Ok f ∧
      columns (F fp) !! 1 = Some f ∧
      data (component (F fp) 2) !! 1 = Some f.2.
Proof.
  assert (Hin : ("circ", ((0, 0, 1), (1, 0, 0))%float) ∈ Python.items three_pols).
  { apply list_elem_of_In. simpl. tauto. }
  assert (Hrun : TwoThree.sweep three_pols v2 true fresh =
                   ((TwoThree.sweep three_pols v2 true fresh).1,
                    Ok (bound 0 ["lin"; "circ"; "perp"] ∅))).
  { vm_compute. reflexivity. }
  split; [reflexivity|].
  eexists _, _. split; [exact Hrun|]. split; [exact Hin|]. split; [reflexivity|].
  exact (sweep_stores_forces (library := Demo.backend) three_pols v2 true fresh _ _
           "circ" ((0, 0, 1), (1, 0, 0))%float 1 0.5%float eq_refl Hrun Hin eq_refl).
Defined.

(** X4 on three polarisations. *)
Lemma sweep_only_appends_witness :
  well_formed v2 ∧
  ∃ objs new,
    heap (TwoThree.sweep three_pols v2 true fresh).1 = heap fresh ++ objs ∧
    trace (TwoThree.sweep three_pols v2 true fresh).1 = trace fresh ++ new ∧
    length objs ≤ Python.len three_pols ∧
    length (constructions new) = length objs ∧
    Forall (λ t, dom (profile t) = {["molasses"]}) objs ∧
    ∀ obe, (TwoThree.sweep three_pols v2 true fresh).2 = Ok obe →
           length objs = Python.len three_pols.
Proof.
  split; [reflexivity|].
  apply (sweep_only_appends (library := Demo.backend) three_pols v2 true fresh). reflexivity.
Defined.

(** X6: the label [circ] in a dictionary of three entries and in one
    where it stands alone, with and without progress bar. *)
Lemma configurations_are_independent_witness :
  let pol := ((0, 0, 1), (1, 0, 0))%float in
  let alone := Python.mk_dict [("circ", pol)] (NoDup_singleton _) in
  well_formed v2 ∧
  ∃ w1' w2' obe1 obe2,
    TwoThree.sweep three_pols v2 true fresh = (w1', Ok obe1) ∧
    TwoThree.sweep alone v2 false fresh = (w2', Ok obe2) ∧
    ("circ", pol) ∈ Python.items three_pols ∧ ("circ", pol) ∈ Python.items alone ∧
    ∃ profiles, results w1' obe1 !! "circ" = Some (Some profiles) ∧
                results w2' obe2 !! "circ" = Some (Some profiles).
Proof.
  intros pol alone.
  assert (Hin : ("circ", pol) ∈ Python.items three_pols).
  { apply list_elem_of_In. simpl. tauto. }
  assert (Hin' : ("circ", pol) ∈ Python.items alone).
  { apply list_elem_of_In. simpl. tauto. }
  assert (Hrun1 : TwoThree.sweep three_pols v2 true fresh =
                    ((TwoThree.sweep three_pols v2 true fresh).1,
                     Ok (bound 0 ["lin"; "circ"; "perp"] ∅))).
  { vm_compute. reflexivity. }
  assert (Hrun2 : TwoThree.sweep alone v2 false fresh =
                    ((TwoThree.sweep alone v2 false fresh).1, Ok (bound 0 ["circ"] ∅))).
  { vm_compute. reflexivity. }
  split; [reflexivity|].
  eexists _, _, _, _. split; [exact Hrun1|]. split; [exact Hrun2|].
  split; [exact Hin|]. split; [exact Hin'|].
  exact (configurations_are_independent (library := Demo.backend)
           three_pols alone v2 true false fresh fresh _ _ _ _ "circ" pol
           eq_refl Hrun1 Hrun2 Hin Hin').
Defined.

(** X7 on a mesh of 2 positions and 3 velocities. *)
Lemma scan_then_plot_witness :
  ∃ w' res,
    Part000.force_scan "obe" x2 v3 "Fz" true fresh = (w', Ok res) ∧
    ∃ lines,
      Part000Cells.scan_and_plot "obe" x2 v3 "Fz" true fresh
        = (w', Ok (Subplots "ax" :: (Line <$> lines))) ∧
      length lines = length (data x2) ∧
      ∀ j xj, data x2 !! j = Some xj →
        ∃ l, lines !! j = Some l ∧ xdata l = data v3 ∧ fmt l = Some "." ∧
          Forall2 (λ vi fz, ∃ f, find_equilibrium_force (scan_args "obe") []
                                   (0, 0, xj)%float (0, 0, vi)%float = Ok f ∧ fz = f.2)
                  (data v3) (ydata l).
Proof.
  assert (Hrun : Part000.force_scan "obe" x2 v3 "Fz" true fresh =
                   ((Part000.force_scan "obe" x2 v3 "Fz" true fresh).1,
                    Ok (0, component (F (scanned_profile "obe" x2 v3)) 2))).
  { vm_compute. reflexivity. }
  eexists _, _. split; [exact Hrun|].
  exact (scan_then_plot (library := Demo.backend) "obe" x2 v3 "Fz" true fresh _ _ Hrun).
Defined.



(** X11 on three polarisations. *)
Lemma beams_of_the_sweep_witness :
  well_formed v2 ∧
  Forall (λ t, ∃ key p1 p2 pc,
            (key, (p1, p2)) ∈ Python.items three_pols ∧
            beams (args t) =
              pylcp_laserBeams
                [ {| kvec := (0, 0, 1)%float; Pylcp.pol := p1; pol_coord := pc;
                     delta := 0%float; Pylcp.s := 1%float |};
                  {| kvec := (0, 0, -1)%float; Pylcp.pol := p2; pol_coord := pc;
                     delta := 0%float; Pylcp.s := 1%float |} ]
                infinitePlaneWaveBeam ∧
            (pc = "spherical" ↔ (0 <? p1.2)%float = true ∨ (0 <? p1.1.2)%float = true) ∧
            (pc = "cartesian" ↔ (0 <? p1.2)%float = false ∧ (0 <? p1.1.2)%float = false) ∧
            ham (args t) = TwoThree.return_hamiltonian 2 (-2.0)%float ∧
            equation (args t) = obe ∧ transform_into_re_im (args t) = Some true)
         (drop (length (heap fresh)) (heap (TwoThree.sweep three_pols v2 true fresh).1)).
Proof.
  split; [reflexivity|].
  apply (beams_of_the_sweep (library := Demo.backend) three_pols v2 true fresh). reflexivity.
Defined.

(** * Runs on a library whose solver can fail *)

#[local] Existing Instance Demo.backend_limited.

(** C6 on three polarisations and the velocities 0.5, 2.5, 0.1: the
    solver gives up at 2.5 for the second, spherical, polarisation. *)
Lemma solver_exception_propagates_witness :
  let e := Exception "RuntimeError" "no convergence" in
  (∃ w',
     TwoThree.sweep three_pols (array1 [0.5; 2.5; 0.1]%float) true fresh = (w', Raised e) ∧
     TwoThree.sweep_loop three_pols (TwoThree.return_hamiltonian 2 TwoThree.det) TwoThree.s
       (array1 [0.5; 2.5; 0.1]%float) true ["lin"; "circ"] ∅ fresh = (w', Raised e) ∧
     length (constructions (trace w')) = 2 ∧
     length (calls (trace w')) = 2 ∧
     sought (trace w') =
       ((λ vi, ((0, 0, 0), (0, 0, vi))%float) <$> [0.5; 2.5; 0.1; 0.5; 2.5]%float))
  ∧
  (∃ w',
     Part000.force_scan "obe" (array1 [0%float]) (array1 [0.5; 2.5; 0.1]%float) "Fz" true fresh
       = (w', Raised e) ∧
     length (calls (trace w')) = 1 ∧
     sought (trace w') = ((λ vi, ((0, 0, 0), (0, 0, vi))%float) <$> [0.5; 2.5]%float)).
Proof.
  destruct (solver_exception_propagates (library := Demo.backend_limited))
    as (Hsweep & Hscan).
  split.
  - edestruct (Hsweep three_pols (array1 [0.5; 2.5; 0.1]%float) true fresh
                 [("lin", ((1, 0, 0), (1, 0, 0))%float)] "circ" ((0, 0, 1), (1, 0, 0))%float
                 [("perp", ((1, 0, 0), (0, 1, 0))%float)]
                 [((0, 0, 0), (0, 0, 0.5))%float] (0, 0, 0)%float (0, 0, 2.5)%float
                 [((0, 0, 0), (0, 0, 0.1))%float]
                 (Exception "RuntimeError" "no convergence"))
      as (w' & new & Hrun & Hcut & Htr & Hn & Hc & Hs).
    + reflexivity.
    + reflexivity.
    + intros kp Hkp. apply list_elem_of_singleton in Hkp as ->.
      repeat constructor; by eexists.
    + reflexivity.
    + repeat constructor; by eexists.
    + reflexivity.
    + simpl in Htr. subst new.
      exists w'. split_and!; [exact Hrun | exact Hcut | exact Hn | exact Hc | exact Hs].
  - edestruct (Hscan "obe" (array1 [0%float]) (array1 [0.5; 2.5; 0.1]%float) "Fz" true fresh
                 [((0, 0, 0), (0, 0, 0.5))%float] (0, 0, 0)%float (0, 0, 2.5)%float
                 [((0, 0, 0), (0, 0, 0.1))%float]
                 (Exception "RuntimeError" "no convergence"))
      as (w' & new & Hrun & Htr & Hc & Hs).
    + reflexivity.
    + repeat constructor; by eexists.
    + reflexivity.
    + simpl in Htr. subst new.
      exists w'. split_and!; [exact Hrun | exact Hc | exact Hs].
Defined.

